(** * solana-go: token state records and associated-token-account builders

    A shallow embedding of
      - [programs/token]: the [Mint], [Account] and [Multisig] state records
        with their binary codecs, and
      - [programs/associated-token-account]: the [Create] and
        [CreateIdempotent] instruction builders,
    followed by the properties proved about them.

    Conventions.  A Go [uintN] is a [Z]; writers reduce it modulo [2^N].  A
    byte is [Init.Byte.byte].  A [PublicKey] ([[32]byte]) is a [vec byte 32].
    A Go pointer used as an optional value ([*PublicKey], [*uint64],
    [*AccountMeta]) is an [option].  A Go slice mutated in place is threaded
    through a state monad; a Go panic is an explicit outcome. *)

From Stdlib Require Import ZArith Lia.
From Stdlib Require Strings.Byte.
From stdpp Require Import base decidable option list vector.

Local Open Scope Z_scope.

Abbreviation byte := Init.Byte.byte.

(** ** Package [binary]: cursor based reading and writing *)

Module binary.

(** The two error kinds of the codec layer: a read past the end of the
    buffer, and a sink that rejects a write. *)
Inductive error :=
| ErrUnexpectedEOF
| ErrSinkWriteFailure.

Inductive result (A : Type) :=
| Ok (a : A)
| Err (e : error).
Arguments Ok {A} a.
Arguments Err {A} e.

(** A [Decoder] is the unread rest of its buffer; an [Encoder] is the bytes
    written so far.  Both are a byte list threaded through a computation
    that may stop with an error, as [if err != nil { return err }] does. *)
Definition codec (A : Type) : Type := list byte → result (A * list byte).

#[export] Instance codec_ret : MRet codec := λ A a buf, Ok (a, buf).
#[export] Instance codec_bind : MBind codec := λ A B f m buf,
  match m buf with
  | Ok (a, buf') => f a buf'
  | Err e => Err e
  end.

Definition byte_of_Z (z : Z) : byte :=
  match Byte.of_N (Z.to_N (z mod 256)) with
  | Some b => b
  | None => Byte.x00
  end.

Definition Z_of_byte (b : byte) : Z := Z.of_N (Byte.to_N b).

(** [binary.LittleEndian.UintN]: least significant byte first. *)
Fixpoint le_to_Z (bs : list byte) : Z :=
  match bs with
  | [] => 0
  | b :: rest => Z_of_byte b + 256 * le_to_Z rest
  end.

(** [binary.LittleEndian.PutUintN] on [n] bytes (the value wraps modulo
    [256^n]). *)
Fixpoint Z_to_le (n : nat) (v : Z) : list byte :=
  match n with
  | O => []
  | S k => byte_of_Z v :: Z_to_le k (v / 256)
  end.

(** Modelled from the spec: the primitive codec of section 4.1 (the
    [Decoder] and [Encoder] of the imported binary package).  A read of [n]
    bytes fails with [UnexpectedEOF] when fewer than [n] bytes remain and
    otherwise consumes exactly [n] bytes. *)
Definition ReadNBytes (n : nat) : codec (list byte) := λ buf,
  if decide (n ≤ length buf)%nat then Ok (take n buf, drop n buf)
  else Err ErrUnexpectedEOF.

(** Modelled from the spec: [readU8] of section 4.1. *)
Definition ReadUint8 : codec Z := bs ← ReadNBytes 1; mret (le_to_Z bs).

(** Modelled from the spec: [readU32] of section 4.1, little-endian. *)
Definition ReadUint32 : codec Z := bs ← ReadNBytes 4; mret (le_to_Z bs).

(** Modelled from the spec: [readU64] of section 4.1, little-endian. *)
Definition ReadUint64 : codec Z := bs ← ReadNBytes 8; mret (le_to_Z bs).

(** Modelled from the spec: [readBool] of section 4.1; [0x00] is [false],
    any other byte is [true]. *)
Definition ReadBool : codec bool := v ← ReadUint8; mret (negb (v =? 0)).

(** Modelled from the spec: [writeBytes] of section 4.1 on an in-memory
    sink, which accepts every write. *)
Definition WriteBytes (bs : list byte) : codec unit := λ out, Ok (tt, out ++ bs).

(** Modelled from the spec: [writeU8], [writeU32], [writeU64] and
    [writeBool] of section 4.1. *)
Definition WriteUint8 (v : Z) : codec unit := WriteBytes (Z_to_le 1 v).
Definition WriteUint32 (v : Z) : codec unit := WriteBytes (Z_to_le 4 v).
Definition WriteUint64 (v : Z) : codec unit := WriteBytes (Z_to_le 8 v).
Definition WriteBool (b : bool) : codec unit := WriteUint8 (if b then 1 else 0).

End binary.

(** ** Package [solana]: keys and account metas *)

Module solana.
Import binary.

Definition PublicKeyLength : nat := 32.

(** Modelled from the spec: a key is 32 bytes (the root package's
    [PublicKey], a [[32]byte]). *)
Definition PublicKey : Type := vec byte PublicKeyLength.

(** [copy(out[:], in)] into a zeroed array of [n] bytes. *)
Fixpoint copy_into (n : nat) (input : list byte) : vec byte n :=
  match n with
  | O => [#]
  | S k =>
      match input with
      | [] => Byte.x00 ::: copy_into k []
      | b :: rest => b ::: copy_into k rest
      end
  end.

(** Modelled from the spec: a 32-byte key read from a byte slice (the root
    package's [PublicKeyFromBytes], which copies into a zero key). *)
Definition PublicKeyFromBytes (input : list byte) : PublicKey :=
  copy_into PublicKeyLength input.

(** [PublicKey{}] *)
Definition zeroPublicKey : PublicKey := vreplicate PublicKeyLength Byte.x00.

(** [key[:]] *)
Definition bytes_of (key : PublicKey) : list byte := vec_to_list key.

#[export] Instance byte_eq_dec : EqDecision byte := Byte.byte_eq_dec.

(** Modelled from the spec: "holds the zero key" (the root package's
    [PublicKey.IsZero]). *)
Definition IsZero (key : PublicKey) : bool := bool_decide (key = zeroPublicKey).

Module AccountMeta.
(** Modelled from the spec: the account role of section 3, an address
    with its write and signer permissions (the root package's
    [AccountMeta]). *)
Record AccountMeta := mk {
  PublicKey : solana.PublicKey;
  IsWritable : bool;
  IsSigner : bool
}.
End AccountMeta.
Abbreviation AccountMeta := AccountMeta.AccountMeta.

(** Modelled from the spec: a fresh role for an address, read-only and
    non-signer (the root package's [Meta]). *)
Definition Meta (pubKey : PublicKey) : AccountMeta :=
  AccountMeta.mk pubKey false false.

(** Modelled from the spec: the role made writable (the root package's
    [AccountMeta.WRITE]). *)
Definition WRITE (meta : AccountMeta) : AccountMeta :=
  AccountMeta.mk (AccountMeta.PublicKey meta) true (AccountMeta.IsSigner meta).

(** Modelled from the spec: the role made a signer (the root package's
    [AccountMeta.SIGNER]). *)
Definition SIGNER (meta : AccountMeta) : AccountMeta :=
  AccountMeta.mk (AccountMeta.PublicKey meta) (AccountMeta.IsWritable meta) true.

(** [AccountMetaSlice] is [[]*AccountMeta]: a slot is [None] while it
    holds the nil pointer. *)
Abbreviation AccountMetaSlice := (list (option AccountMeta)).

End solana.

(** ** Package [token]: the state records *)

Module token.
Import binary solana.

Module Mint.

Record Mint := mk {
  MintAuthority : option PublicKey;
  Supply : Z;
  Decimals : Z;
  IsInitialized : bool;
  FreezeAuthority : option PublicKey
}.

(** [Mint{}], the value a caller decodes into. *)
Definition zero : Mint := mk None 0 0 false None.

Definition set_MintAuthority (v : option PublicKey) (m : Mint) : Mint :=
  mk v (Supply m) (Decimals m) (IsInitialized m) (FreezeAuthority m).
Definition set_Supply (v : Z) (m : Mint) : Mint :=
  mk (MintAuthority m) v (Decimals m) (IsInitialized m) (FreezeAuthority m).
Definition set_Decimals (v : Z) (m : Mint) : Mint :=
  mk (MintAuthority m) (Supply m) v (IsInitialized m) (FreezeAuthority m).
Definition set_IsInitialized (v : bool) (m : Mint) : Mint :=
  mk (MintAuthority m) (Supply m) (Decimals m) v (FreezeAuthority m).
Definition set_FreezeAuthority (v : option PublicKey) (m : Mint) : Mint :=
  mk (MintAuthority m) (Supply m) (Decimals m) (IsInitialized m) v.

(** [func (mint *Mint) UnmarshalWithDecoder(dec)]: the receiver is
    updated field by field; a field whose flag is not 1 is left as the
    receiver had it.  When a read fails the error is returned; what the
    receiver holds by then is not kept. *)
Definition UnmarshalWithDecoder (mint : Mint) : codec Mint :=
  v ← ReadUint32;
  mint ← (if v =? 1 then
            v ← ReadNBytes 32;
            mret (set_MintAuthority (Some (PublicKeyFromBytes v)) mint)
          else
            (* discard: *)
            _ ← ReadNBytes 32;
            mret mint);
  v ← ReadUint64;
  let mint := set_Supply v mint in
  v ← ReadUint8;
  let mint := set_Decimals v mint in
  v ← ReadBool;
  let mint := set_IsInitialized v mint in
  v ← ReadUint32;
  mint ← (if v =? 1 then
            v ← ReadNBytes 32;
            mret (set_FreezeAuthority (Some (PublicKeyFromBytes v)) mint)
          else
            (* discard: *)
            _ ← ReadNBytes 32;
            mret mint);
  mret mint.

Definition MarshalWithEncoder (mint : Mint) : codec unit :=
  match MintAuthority mint with
  | None =>
      WriteUint32 0;;
      let empty := zeroPublicKey in
      WriteBytes (bytes_of empty)
  | Some authority =>
      WriteUint32 1;;
      WriteBytes (bytes_of authority)
  end;;
  WriteUint64 (Supply mint);;
  WriteUint8 (Decimals mint);;
  WriteBool (IsInitialized mint);;
  match FreezeAuthority mint with
  | None =>
      WriteUint32 0;;
      let empty := zeroPublicKey in
      WriteBytes (bytes_of empty)
  | Some authority =>
      WriteUint32 1;;
      WriteBytes (bytes_of authority)
  end.

End Mint.

Module Account.

(** [AccountState] is a [uint8]: Uninitialized, Initialized, Frozen. *)
Definition AccountState : Type := Z.

Record Account := mk {
  Mint : PublicKey;
  Owner : PublicKey;
  Amount : Z;
  Delegate : option PublicKey;
  State : AccountState;
  IsNative : option Z;
  DelegatedAmount : Z;
  CloseAuthority : option PublicKey
}.

(** [Account{}], the value a caller decodes into. *)
Definition zero : Account :=
  mk zeroPublicKey zeroPublicKey 0 None 0 None 0 None.

Definition set_Mint (v : PublicKey) (a : Account) : Account :=
  mk v (Owner a) (Amount a) (Delegate a) (State a) (IsNative a)
     (DelegatedAmount a) (CloseAuthority a).
Definition set_Owner (v : PublicKey) (a : Account) : Account :=
  mk (Mint a) v (Amount a) (Delegate a) (State a) (IsNative a)
     (DelegatedAmount a) (CloseAuthority a).
Definition set_Amount (v : Z) (a : Account) : Account :=
  mk (Mint a) (Owner a) v (Delegate a) (State a) (IsNative a)
     (DelegatedAmount a) (CloseAuthority a).
Definition set_Delegate (v : option PublicKey) (a : Account) : Account :=
  mk (Mint a) (Owner a) (Amount a) v (State a) (IsNative a)
     (DelegatedAmount a) (CloseAuthority a).
Definition set_State (v : AccountState) (a : Account) : Account :=
  mk (Mint a) (Owner a) (Amount a) (Delegate a) v (IsNative a)
     (DelegatedAmount a) (CloseAuthority a).
Definition set_IsNative (v : option Z) (a : Account) : Account :=
  mk (Mint a) (Owner a) (Amount a) (Delegate a) (State a) v
     (DelegatedAmount a) (CloseAuthority a).
Definition set_DelegatedAmount (v : Z) (a : Account) : Account :=
  mk (Mint a) (Owner a) (Amount a) (Delegate a) (State a) (IsNative a)
     v (CloseAuthority a).
Definition set_CloseAuthority (v : option PublicKey) (a : Account) : Account :=
  mk (Mint a) (Owner a) (Amount a) (Delegate a) (State a) (IsNative a)
     (DelegatedAmount a) v.

(** [func (mint *Account) UnmarshalWithDecoder(dec)] (the receiver is
    named [mint] in the source). *)
Definition UnmarshalWithDecoder (mint : Account) : codec Account :=
  v ← ReadNBytes 32;
  let mint := set_Mint (PublicKeyFromBytes v) mint in
  v ← ReadNBytes 32;
  let mint := set_Owner (PublicKeyFromBytes v) mint in
  v ← ReadUint64;
  let mint := set_Amount v mint in
  v ← ReadUint32;
  mint ← (if v =? 1 then
            v ← ReadNBytes 32;
            mret (set_Delegate (Some (PublicKeyFromBytes v)) mint)
          else
            (* discard: *)
            _ ← ReadNBytes 32;
            mret mint);
  v ← ReadUint8;
  let mint := set_State v mint in
  v ← ReadUint32;
  mint ← (if v =? 1 then
            v ← ReadUint64;
            mret (set_IsNative (Some v) mint)
          else
            (* discard: *)
            _ ← ReadUint64;
            mret mint);
  v ← ReadUint64;
  let mint := set_DelegatedAmount v mint in
  v ← ReadUint32;
  mint ← (if v =? 1 then
            v ← ReadNBytes 32;
            mret (set_CloseAuthority (Some (PublicKeyFromBytes v)) mint)
          else
            (* discard: *)
            _ ← ReadNBytes 32;
            mret mint);
  mret mint.

Definition MarshalWithEncoder (mint : Account) : codec unit :=
  WriteBytes (bytes_of (Mint mint));;
  WriteBytes (bytes_of (Owner mint));;
  WriteUint64 (Amount mint);;
  match Delegate mint with
  | None =>
      WriteUint32 0;;
      let empty := zeroPublicKey in
      WriteBytes (bytes_of empty)
  | Some delegate =>
      WriteUint32 1;;
      WriteBytes (bytes_of delegate)
  end;;
  WriteUint8 (State mint);;
  match IsNative mint with
  | None =>
      WriteUint32 0;;
      WriteUint64 0
  | Some isNative =>
      WriteUint32 1;;
      WriteUint64 isNative
  end;;
  WriteUint64 (DelegatedAmount mint);;
  match CloseAuthority mint with
  | None =>
      WriteUint32 0;;
      let empty := zeroPublicKey in
      WriteBytes (bytes_of empty)
  | Some authority =>
      WriteUint32 1;;
      WriteBytes (bytes_of authority)
  end.

End Account.

Module Multisig.

(** [MAX_SIGNERS] is declared elsewhere in the package; the record and its
    codec take it as a parameter. *)
Record Multisig (MAX_SIGNERS : nat) := mk {
  M : Z;
  N : Z;
  IsInitialized : bool;
  Signers : vec PublicKey MAX_SIGNERS
}.
Arguments mk {MAX_SIGNERS} _ _ _ _.
Arguments M {MAX_SIGNERS} _.
Arguments N {MAX_SIGNERS} _.
Arguments IsInitialized {MAX_SIGNERS} _.
Arguments Signers {MAX_SIGNERS} _.

(** Modelled from the spec: the generic [Encode] of the binary package at
    the types of the record's fields, after the wire format of section 6,
    [[u8][u8][u8-as-bool][N_MAX × 32B]]. *)
Definition Encode_uint8 (v : Z) : codec unit := WriteUint8 v.
Definition Encode_bool (v : bool) : codec unit := WriteBool v.
Fixpoint Encode_keys {n : nat} (keys : vec PublicKey n) : codec unit :=
  match keys with
  | [#] => mret tt
  | key ::: rest => WriteBytes (bytes_of key);; Encode_keys rest
  end.

(** Modelled from the spec: the generic [Decode] of the binary package at
    the same types. *)
Definition Decode_uint8 : codec Z := ReadUint8.
Definition Decode_bool : codec bool := ReadBool.
Fixpoint Decode_keys (n : nat) : codec (vec PublicKey n) :=
  match n with
  | O => mret [#]
  | S k =>
      v ← ReadNBytes 32;
      rest ← Decode_keys k;
      mret (PublicKeyFromBytes v ::: rest)
  end.

Definition MarshalWithEncoder {MAX_SIGNERS} (obj : Multisig MAX_SIGNERS) : codec unit :=
  Encode_uint8 (M obj);;
  Encode_uint8 (N obj);;
  Encode_bool (IsInitialized obj);;
  Encode_keys (Signers obj).

(** Every field of the receiver is overwritten. *)
Definition UnmarshalWithDecoder {MAX_SIGNERS} (obj : Multisig MAX_SIGNERS)
  : codec (Multisig MAX_SIGNERS) :=
  m ← Decode_uint8;
  n ← Decode_uint8;
  isInitialized ← Decode_bool;
  signers ← Decode_keys MAX_SIGNERS;
  mret (mk m n isInitialized signers).

Definition zero (MAX_SIGNERS : nat) : Multisig MAX_SIGNERS :=
  mk 0 0 false (vreplicate MAX_SIGNERS zeroPublicKey).

End Multisig.

End token.

(** ** Package [associatedtokenaccount]: the instruction builders *)

Module associatedtokenaccount.
Import binary solana.

(** What the builders take from the rest of the repository: the address
    derivation (an external collaborator, a pure function of the seeds and the
    program id, returning the address, the bump and whether one was found) and
    the well-known keys. *)
Class Collaborators := {
  FindProgramAddress : list (list byte) → PublicKey → PublicKey * Z * bool;
  SystemProgramID : PublicKey;
  TokenProgramID : PublicKey;
  SysVarRentPubkey : PublicKey;
  SPLAssociatedTokenAccountProgramID : PublicKey
}.

(** Modelled from the spec: the derivation of the associated address (the
    root package's [FindAssociatedTokenAddress]), which calls the external
    derivation with the seeds (walletKey, tokenProgramKey, mintKey) against
    the fixed owning-program id. *)
Definition FindAssociatedTokenAddress `{Collaborators}
    (wallet mint tokenProgramID : PublicKey) : PublicKey * Z * bool :=
  FindProgramAddress
    [bytes_of wallet; bytes_of tokenProgramID; bytes_of mint]
    SPLAssociatedTokenAccountProgramID.

(** Modelled from the spec: the one-byte discriminants, a distinct constant
    per variant, declared elsewhere in the package; the values are those of
    the on-chain program. *)
Definition Instruction_Create : Z := 0.
Definition Instruction_CreateIdempotent : Z := 1.

(** Modelled from the spec: the instruction's type id made of its one-byte
    discriminant (the binary package's [TypeIDFromUint8]). *)
Definition TypeIDFromUint8 (v : Z) : Z := v mod 256.

(** [Instruction{BaseVariant{Impl, TypeID}}].  [Impl] is the builder, whose
    only field is the account list. *)
Record Instruction := mkInstruction {
  Impl : AccountMetaSlice;
  TypeID : Z
}.

(** [fmt.Errorf("ins.AccountMetaSlice[%v] is not set", accIndex)] *)
Inductive error :=
| NotSet (accIndex : nat).

Inductive panic :=
| IndexOutOfRange (index : nat) (len : nat)
| NilDereference.

Inductive outcome (A : Type) :=
| Returns (a : A)
| Panics (p : panic).
Arguments Returns {A} a.
Arguments Panics {A} p.

(** A method of a builder.  The builder's only field is a slice, so a value
    receiver and a pointer receiver both work on the one backing array: the
    method gets the array's contents and leaves its contents behind, also
    when it panics. *)
Definition method (A : Type) : Type :=
  AccountMetaSlice → outcome A * AccountMetaSlice.

#[export] Instance method_ret : MRet method := λ A a s, (Returns a, s).
#[export] Instance method_bind : MBind method := λ A B f m s,
  match m s with
  | (Returns a, s') => f a s'
  | (Panics p, s') => (Panics p, s')
  end.

(** [inst.AccountMetaSlice[i]] *)
Definition index (i : nat) : method (option AccountMeta) := λ s,
  match s !! i with
  | Some acc => (Returns acc, s)
  | None => (Panics (IndexOutOfRange i (length s)), s)
  end.

(** [inst.AccountMetaSlice[i] = acc] *)
Definition assign (i : nat) (acc : option AccountMeta) : method unit := λ s,
  if decide (i < length s)%nat then (Returns tt, <[i:=acc]> s)
  else (Panics (IndexOutOfRange i (length s)), s).

(** [acc.PublicKey] for [acc : *AccountMeta] *)
Definition PublicKey_of (acc : option AccountMeta) : method PublicKey := λ s,
  match acc with
  | Some meta => (Returns (AccountMeta.PublicKey meta), s)
  | None => (Panics NilDereference, s)
  end.

(** [inst.AccountMetaSlice], read as a whole *)
Definition receiver : method AccountMetaSlice := λ s, (Returns s, s).

(** [ata == nil || ata.PublicKey.IsZero()] *)
Definition nil_or_zero (ata : option AccountMeta) : bool :=
  match ata with
  | None => true
  | Some meta => IsZero (AccountMeta.PublicKey meta)
  end.

(** [for accIndex, acc := range inst.AccountMetaSlice { if acc == nil
    { return fmt.Errorf(...) } }; return nil], from index [accIndex] on. *)
Fixpoint range_check (accIndex : nat) (accs : AccountMetaSlice) : option error :=
  match accs with
  | [] => None
  | acc :: rest =>
      match acc with
      | None => Some (NotSet accIndex)
      | Some _ => range_check (S accIndex) rest
      end
  end.

Module CreateIdempotent.

Definition NewCreateIdempotentInstructionBuilder `{Collaborators} : AccountMetaSlice :=
  let nd := replicate 7 None in
  let nd := <[4%nat := Some (Meta SystemProgramID)]> nd in
  let nd := <[5%nat := Some (Meta TokenProgramID)]> nd in
  let nd := <[6%nat := Some (Meta SysVarRentPubkey)]> nd in
  nd.

Definition SetPayer (payer : PublicKey) : method unit :=
  assign 0 (Some (SIGNER (WRITE (Meta payer)))).

Definition GetPayer : method (option AccountMeta) := index 0.

Definition SetAssociatedTokenAccount (associatedTokenAccount : PublicKey) : method unit :=
  assign 1 (Some (WRITE (Meta associatedTokenAccount))).

Definition GetAssociatedTokenAccount : method (option AccountMeta) := index 1.

Definition SetWallet (wallet : PublicKey) : method unit :=
  assign 2 (Some (Meta wallet)).

Definition GetWallet : method (option AccountMeta) := index 2.

Definition SetMint (mint : PublicKey) : method unit :=
  assign 3 (Some (Meta mint)).

Definition GetMint : method (option AccountMeta) := index 3.

Definition SetTokenProgramID (tokenProgramID : PublicKey) : method unit :=
  assign 5 (Some (Meta tokenProgramID)).

Definition GetTokenProgramID : method (option AccountMeta) := index 5.

Definition Build `{Collaborators} : method Instruction :=
  ata ← index 1;
  (if nil_or_zero ata then
     (* Find the associatedTokenAddress; *)
     wallet ← GetWallet ≫= PublicKey_of;
     mint ← GetMint ≫= PublicKey_of;
     tokenProgramID ← GetTokenProgramID ≫= PublicKey_of;
     let '(associatedTokenAddress, _, _) :=
       FindAssociatedTokenAddress wallet mint tokenProgramID in
     SetAssociatedTokenAccount associatedTokenAddress
   else mret tt);;
  inst ← receiver;
  mret (mkInstruction inst (TypeIDFromUint8 Instruction_CreateIdempotent)).

Definition Validate `{Collaborators} : method (option error) :=
  ata ← index 1;
  (if nil_or_zero ata then
     (* Find the associatedTokenAddress; *)
     wallet ← GetWallet ≫= PublicKey_of;
     mint ← GetMint ≫= PublicKey_of;
     tokenProgramID ← GetTokenProgramID ≫= PublicKey_of;
     let '(associatedTokenAddress, _, _) :=
       FindAssociatedTokenAddress wallet mint tokenProgramID in
     SetAssociatedTokenAccount associatedTokenAddress
   else mret tt);;
  (* Check whether all accounts are set: *)
  inst ← receiver;
  mret (range_check 0 inst).

(** Returns [(nil, err)] or [(inst.Build(), nil)]. *)
Definition ValidateAndBuild `{Collaborators} : method (Instruction + error) :=
  err ← Validate;
  match err with
  | Some err => mret (inr err)
  | None => inst ← Build; mret (inl inst)
  end.

Definition MarshalWithEncoder : codec unit := WriteBytes [].

Definition UnmarshalWithDecoder : codec unit := mret tt.

(** The setter chain, run on a fresh builder. *)
Definition NewCreateIdempotentInstruction `{Collaborators}
    (payer walletAddress splTokenMintAddress tokenProgramID : PublicKey)
  : outcome unit * AccountMetaSlice :=
  (SetPayer payer;;
   SetWallet walletAddress;;
   SetMint splTokenMintAddress;;
   SetTokenProgramID tokenProgramID) NewCreateIdempotentInstructionBuilder.

End CreateIdempotent.

Module Create.

Definition NewCreateInstructionBuilder `{Collaborators} : AccountMetaSlice :=
  let nd := replicate 7 None in
  let nd := <[4%nat := Some (Meta SystemProgramID)]> nd in
  let nd := <[5%nat := Some (Meta TokenProgramID)]> nd in
  let nd := <[6%nat := Some (Meta SysVarRentPubkey)]> nd in
  nd.

Definition SetPayer (payer : PublicKey) : method unit :=
  assign 0 (Some (SIGNER (WRITE (Meta payer)))).

Definition GetPayer : method (option AccountMeta) := index 0.

Definition SetAssociatedTokenAccount (associatedTokenAccount : PublicKey) : method unit :=
  assign 1 (Some (WRITE (Meta associatedTokenAccount))).

Definition GetAssociatedTokenAccount : method (option AccountMeta) := index 1.

Definition SetWallet (wallet : PublicKey) : method unit :=
  assign 2 (Some (Meta wallet)).

Definition GetWallet : method (option AccountMeta) := index 2.

Definition SetMint (mint : PublicKey) : method unit :=
  assign 3 (Some (Meta mint)).

Definition GetMint : method (option AccountMeta) := index 3.

Definition SetTokenProgramID (tokenProgramID : PublicKey) : method unit :=
  assign 5 (Some (Meta tokenProgramID)).

Definition GetTokenProgramID : method (option AccountMeta) := index 5.

Definition Build `{Collaborators} : method Instruction :=
  ata ← index 1;
  (if nil_or_zero ata then
     (* Find the associatedTokenAddress; *)
     wallet ← GetWallet ≫= PublicKey_of;
     mint ← GetMint ≫= PublicKey_of;
     tokenProgramID ← GetTokenProgramID ≫= PublicKey_of;
     let '(associatedTokenAddress, _, _) :=
       FindAssociatedTokenAddress wallet mint tokenProgramID in
     SetAssociatedTokenAccount associatedTokenAddress
   else mret tt);;
  inst ← receiver;
  mret (mkInstruction inst (TypeIDFromUint8 Instruction_Create)).

Definition Validate `{Collaborators} : method (option error) :=
  ata ← index 1;
  (if nil_or_zero ata then
     (* Find the associatedTokenAddress; *)
     wallet ← GetWallet ≫= PublicKey_of;
     mint ← GetMint ≫= PublicKey_of;
     tokenProgramID ← GetTokenProgramID ≫= PublicKey_of;
     let '(associatedTokenAddress, _, _) :=
       FindAssociatedTokenAddress wallet mint tokenProgramID in
     SetAssociatedTokenAccount associatedTokenAddress
   else mret tt);;
  (* Check whether all accounts are set: *)
  inst ← receiver;
  mret (range_check 0 inst).

(** Returns [(nil, err)] or [(inst.Build(), nil)]. *)
Definition ValidateAndBuild `{Collaborators} : method (Instruction + error) :=
  err ← Validate;
  match err with
  | Some err => mret (inr err)
  | None => inst ← Build; mret (inl inst)
  end.

Definition MarshalWithEncoder : codec unit := WriteBytes [].

Definition UnmarshalWithDecoder : codec unit := mret tt.

(** The setter chain, run on a fresh builder. *)
Definition NewCreateInstruction `{Collaborators}
    (payer walletAddress splTokenMintAddress tokenProgramID : PublicKey)
  : outcome unit * AccountMetaSlice :=
  (SetPayer payer;;
   SetWallet walletAddress;;
   SetMint splTokenMintAddress;;
   SetTokenProgramID tokenProgramID) NewCreateInstructionBuilder.

End Create.

End associatedtokenaccount.

(** ** Notions the properties are stated with *)

Import binary solana token associatedtokenaccount.

(** The bytes an encoder holds after [c] ran on an empty one. *)
Definition written (c : codec unit) : result (list byte) :=
  match c [] with
  | Ok (_, out) => Ok out
  | Err e => Err e
  end.

(** Decoding a buffer into a fresh record, as [var m Mint;
    m.UnmarshalWithDecoder(dec)] does. *)
Definition decode_Mint : codec Mint.Mint :=
  Mint.UnmarshalWithDecoder Mint.zero.
Definition decode_Account : codec Account.Account :=
  Account.UnmarshalWithDecoder Account.zero.
Definition decode_Multisig (MAX_SIGNERS : nat) : codec (Multisig.Multisig MAX_SIGNERS) :=
  Multisig.UnmarshalWithDecoder (Multisig.zero MAX_SIGNERS).

(** [encode(decode(buf))] *)
Definition reencode {A} (decode : codec A) (encode : A → codec unit)
    (buf : list byte) : result (list byte) :=
  match decode buf with
  | Ok (a, _) => written (encode a)
  | Err e => Err e
  end.

(** The [len] bytes of a buffer from offset [off]. *)
Definition field (off len : nat) (buf : list byte) : list byte :=
  take len (drop off buf).

Definition zero_bytes (bs : list byte) : bool :=
  forallb (λ b, bool_decide (b = Byte.x00)) bs.

(** An optional field's slot (the 4-byte flag and the payload) is canonical
    when the flag is 1, or the flag is 0 and the payload is all zero. *)
Definition canonical_optional (slot : list byte) : bool :=
  let flag := le_to_Z (take 4 slot) in
  (flag =? 1) || ((flag =? 0) && zero_bytes (drop 4 slot)).

(** A boolean's byte is canonical when it is 0 or 1. *)
Definition canonical_bool (slot : list byte) : bool := le_to_Z slot <? 2.

Definition canonical_Mint (buf : list byte) : bool :=
  canonical_optional (field 0 36 buf)
  && canonical_bool (field 45 1 buf)
  && canonical_optional (field 46 36 buf).

Definition canonical_Account (buf : list byte) : bool :=
  canonical_optional (field 72 36 buf)
  && canonical_optional (field 109 12 buf)
  && canonical_optional (field 129 36 buf).

Definition canonical_Multisig (buf : list byte) : bool :=
  canonical_bool (field 2 1 buf).

(** The wire form of an optional key and of an optional [u64] after the
    spec's [encodeOptional]: the flag, then the payload or as many zero
    bytes. *)
Definition encodeOptional_key (x : option PublicKey) : list byte :=
  match x with
  | Some key => Z_to_le 4 1 ++ bytes_of key
  | None => Z_to_le 4 0 ++ replicate 32 Byte.x00
  end.

Definition encodeOptional_u64 (x : option Z) : list byte :=
  match x with
  | Some v => Z_to_le 4 1 ++ Z_to_le 8 v
  | None => Z_to_le 4 0 ++ replicate 8 Byte.x00
  end.

(** The wire form of a fixed array of keys: the keys end to end. *)
Fixpoint keys_wire {n : nat} (keys : vec PublicKey n) : list byte :=
  match keys with
  | [#] => []
  | key ::: rest => bytes_of key ++ keys_wire rest
  end.

(** The derive-if-unset step that [Build] and [Validate] both start with. *)
Definition derive_if_unset `{Collaborators} : method unit :=
  ata ← index 1;
  if nil_or_zero ata then
    wallet ← index 2 ≫= PublicKey_of;
    mint ← index 3 ≫= PublicKey_of;
    tokenProgramID ← index 5 ≫= PublicKey_of;
    let '(associatedTokenAddress, _, _) :=
      FindAssociatedTokenAddress wallet mint tokenProgramID in
    assign 1 (Some (WRITE (Meta associatedTokenAddress)))
  else mret tt.

(** The address the external derivation returns for the seeds
    (W, P, M) against the owning program id, its bump and validity outputs
    dropped. *)
Definition derived_address `{Collaborators} (W M P : PublicKey) : PublicKey :=
  (FindProgramAddress [bytes_of W; bytes_of P; bytes_of M]
     SPLAssociatedTokenAccountProgramID).1.1.

(** A slot is set when it holds a role. *)
Definition is_set (s : AccountMetaSlice) (i : nat) : Prop :=
  ∃ meta, s !! i = Some (Some meta).

(** A slot is unset when it exists and holds no role. *)
Definition is_unset (s : AccountMetaSlice) (i : nat) : Prop :=
  s !! i = Some None.

(** [i] is the first unset slot in ascending order. *)
Definition first_unset (s : AccountMetaSlice) (i : nat) : Prop :=
  is_unset s i ∧ ∀ j, (j < i)%nat → is_set s j.

(** What a caller gets from [f()] when [f] returns a pointer: the result, or
    the panic. *)
Definition returned {A B} (f : A → B) (r : outcome A * AccountMetaSlice)
  : outcome B * AccountMetaSlice :=
  match r with
  | (Returns a, s) => (Returns (f a), s)
  | (Panics p, s) => (Panics p, s)
  end.

(** A call of one of the five setters, and a chain of such calls, on either
    builder. *)
Inductive setter :=
| CallSetPayer (key : PublicKey)
| CallSetAssociatedTokenAccount (key : PublicKey)
| CallSetWallet (key : PublicKey)
| CallSetMint (key : PublicKey)
| CallSetTokenProgramID (key : PublicKey).

Definition Create_call (c : setter) : method unit :=
  match c with
  | CallSetPayer key => Create.SetPayer key
  | CallSetAssociatedTokenAccount key => Create.SetAssociatedTokenAccount key
  | CallSetWallet key => Create.SetWallet key
  | CallSetMint key => Create.SetMint key
  | CallSetTokenProgramID key => Create.SetTokenProgramID key
  end.

Definition CreateIdempotent_call (c : setter) : method unit :=
  match c with
  | CallSetPayer key => CreateIdempotent.SetPayer key
  | CallSetAssociatedTokenAccount key => CreateIdempotent.SetAssociatedTokenAccount key
  | CallSetWallet key => CreateIdempotent.SetWallet key
  | CallSetMint key => CreateIdempotent.SetMint key
  | CallSetTokenProgramID key => CreateIdempotent.SetTokenProgramID key
  end.

Fixpoint chain (call : setter → method unit) (cs : list setter) : method unit :=
  match cs with
  | [] => mret tt
  | c :: rest => call c;; chain call rest
  end.

(** Two results of [Build], the first of a [Create] builder and the second of
    a [CreateIdempotent] builder, that differ in the discriminant only: both
    return, with the same account list and each with its own discriminant, or
    both panic the same way. *)
Definition differ_in_discriminant_only (r1 r2 : outcome Instruction) : Prop :=
  match r1, r2 with
  | Returns i1, Returns i2 =>
      Impl i1 = Impl i2
      ∧ TypeID i1 = Instruction_Create
      ∧ TypeID i2 = Instruction_CreateIdempotent
      ∧ TypeID i1 ≠ TypeID i2
  | Panics p1, Panics p2 => p1 = p2
  | _, _ => False
  end.

(** ** Notions for the further properties *)

(** A value of Go's [uintN]. *)
Definition is_uint (bits : Z) (v : Z) : Prop := 0 ≤ v < 2 ^ bits.

(** Records whose integer fields are values of their Go types. *)
Definition Mint_in_range (m : Mint.Mint) : Prop :=
  is_uint 64 (Mint.Supply m) ∧ is_uint 8 (Mint.Decimals m).

Definition Account_in_range (a : Account.Account) : Prop :=
  is_uint 64 (Account.Amount a)
  ∧ is_uint 8 (Account.State a)
  ∧ match Account.IsNative a with Some v => is_uint 64 v | None => True end
  ∧ is_uint 64 (Account.DelegatedAmount a).

Definition Multisig_in_range {n : nat} (obj : Multisig.Multisig n) : Prop :=
  is_uint 8 (Multisig.M obj) ∧ is_uint 8 (Multisig.N obj).

(** The wire form of each record, field after field. *)
Definition Mint_wire (m : Mint.Mint) : list byte :=
  encodeOptional_key (Mint.MintAuthority m)
  ++ Z_to_le 8 (Mint.Supply m)
  ++ Z_to_le 1 (Mint.Decimals m)
  ++ Z_to_le 1 (if Mint.IsInitialized m then 1 else 0)
  ++ encodeOptional_key (Mint.FreezeAuthority m).

Definition Account_wire (a : Account.Account) : list byte :=
  bytes_of (Account.Mint a)
  ++ bytes_of (Account.Owner a)
  ++ Z_to_le 8 (Account.Amount a)
  ++ encodeOptional_key (Account.Delegate a)
  ++ Z_to_le 1 (Account.State a)
  ++ encodeOptional_u64 (Account.IsNative a)
  ++ Z_to_le 8 (Account.DelegatedAmount a)
  ++ encodeOptional_key (Account.CloseAuthority a).

Definition Multisig_wire {n : nat} (obj : Multisig.Multisig n) : list byte :=
  Z_to_le 1 (Multisig.M obj)
  ++ Z_to_le 1 (Multisig.N obj)
  ++ Z_to_le 1 (if Multisig.IsInitialized obj then 1 else 0)
  ++ keys_wire (Multisig.Signers obj).

(** What the derive-if-unset step needs in order to return: slot 1 exists,
    and it holds a non-zero key or the wallet, mint and token-program slots
    are set. *)
Definition can_derive (s : AccountMetaSlice) : Prop :=
  ∃ ata, s !! 1%nat = Some ata
         ∧ (nil_or_zero ata = false ∨ (is_set s 2 ∧ is_set s 3 ∧ is_set s 5)).

(** The slot a setter call writes and the role it writes there. *)
Definition slot_of (c : setter) : nat :=
  match c with
  | CallSetPayer _ => 0
  | CallSetAssociatedTokenAccount _ => 1
  | CallSetWallet _ => 2
  | CallSetMint _ => 3
  | CallSetTokenProgramID _ => 5
  end%nat.

Definition role_of (c : setter) : AccountMeta :=
  match c with
  | CallSetPayer key => AccountMeta.mk key true true
  | CallSetAssociatedTokenAccount key => AccountMeta.mk key true false
  | CallSetWallet key => AccountMeta.mk key false false
  | CallSetMint key => AccountMeta.mk key false false
  | CallSetTokenProgramID key => AccountMeta.mk key false false
  end.

(** The role the last call of a chain for slot [i] writes, if the chain has
    a call for slot [i]. *)
Fixpoint last_write (i : nat) (cs : list setter) : option AccountMeta :=
  match cs with
  | [] => None
  | c :: rest =>
      match last_write i rest with
      | Some role => Some role
      | None => if decide (slot_of c = i) then Some (role_of c) else None
      end
  end.

(** ** Sample data *)

Definition sample_key (b : byte) : PublicKey := vreplicate PublicKeyLength b.

(** A derivation to run the builders with: the first eight bytes of every
    seed, in the order of the seeds. *)
Definition sample_collaborators : Collaborators := {|
  FindProgramAddress := λ seeds programID,
    (PublicKeyFromBytes (concat (map (take 8) seeds)), 255, true);
  SystemProgramID := zeroPublicKey;
  TokenProgramID := sample_key Byte.x06;
  SysVarRentPubkey := sample_key Byte.x07;
  SPLAssociatedTokenAccountProgramID := sample_key Byte.x8c
|}.

(** A builder made by [NewCreateInstruction] from four keys. *)
Definition sample_builder : AccountMetaSlice :=
  (Create.NewCreateInstruction (H := sample_collaborators)
     (sample_key Byte.x01) (sample_key Byte.x02) (sample_key Byte.x03)
     (sample_key Byte.x04)).2.

(** A builder with the wallet, the mint and the token program set and no
    payer. *)
Definition sample_no_payer : AccountMetaSlice :=
  ((Create.SetWallet (sample_key Byte.x02);;
    Create.SetMint (sample_key Byte.x03);;
    Create.SetTokenProgramID (sample_key Byte.x04))
     (Create.NewCreateInstructionBuilder (H := sample_collaborators))).2.

(** A builder whose token-program slot alone was cleared. *)
Definition sample_no_token_program : AccountMetaSlice :=
  <[5%nat := None]>
    (<[1%nat := Some (WRITE (Meta (sample_key Byte.x09)))]> sample_builder).

(** A [Mint] buffer whose first presence flag is 2. *)
Definition sample_flag2_mint : list byte :=
  Z_to_le 4 2 ++ replicate 78 Byte.x00.

(** A [Mint] buffer with a mint authority, a supply, six decimals, the
    initialized byte 1, and no freeze authority. *)
Definition sample_mint : list byte :=
  Z_to_le 4 1 ++ replicate 32 Byte.x2a ++ Z_to_le 8 1000000 ++ Z_to_le 1 6
  ++ Z_to_le 1 1 ++ Z_to_le 4 0 ++ replicate 32 Byte.x00.

(** A [Mint] record and an [Account] record in range, and a receiver that
    already holds a mint authority. *)
Definition sample_mint_record : Mint.Mint :=
  Mint.mk (Some (sample_key Byte.x2a)) 1000000 6 true None.

Definition sample_account_record : Account.Account :=
  Account.mk (sample_key Byte.x03) (sample_key Byte.x02) 500
    None 1 (Some 2039280) 0 (Some (sample_key Byte.x02)).

Definition sample_multisig_record : Multisig.Multisig 2 :=
  Multisig.mk 1 2 true [# sample_key Byte.x01; sample_key Byte.x02].

Definition sample_used_receiver : Mint.Mint :=
  Mint.mk (Some (sample_key Byte.x11)) 7 0 true (Some (sample_key Byte.x12)).

(** A builder with an explicit associated address and nothing else set by
    the caller. *)
Definition sample_explicit_ata : AccountMetaSlice :=
  (Create.SetAssociatedTokenAccount (sample_key Byte.x09)
     (Create.NewCreateInstructionBuilder (H := sample_collaborators))).2.

(** A setter chain that sets the wallet twice and the payer after the mint. *)
Definition sample_chain : list setter :=
  [CallSetWallet (sample_key Byte.x02); CallSetMint (sample_key Byte.x03);
   CallSetPayer (sample_key Byte.x01); CallSetWallet (sample_key Byte.x05)].

(** * Properties *)

Local Open Scope Z_scope.

(** ** Bytes, integers and keys *)

Lemma Z_of_byte_range b : 0 ≤ Z_of_byte b < 256.
Proof.
  unfold Z_of_byte. pose proof (Byte.to_N_bounded b). lia.
Qed.

Lemma byte_of_Z_of_byte b k : byte_of_Z (Z_of_byte b + 256 * k) = b.
Proof.
  unfold byte_of_Z.
  replace ((Z_of_byte b + 256 * k) mod 256) with (Z_of_byte b).
  - unfold Z_of_byte. rewrite N2Z.id, Byte.of_to_N. reflexivity.
  - pose proof (Z_of_byte_range b).
    rewrite (Z.mul_comm 256), Z.mod_add by lia.
    symmetry. apply Z.mod_small. lia.
Qed.

Lemma Z_to_le_le_to_Z bs n : length bs = n → Z_to_le n (le_to_Z bs) = bs.
Proof.
  intros <-. induction bs as [|b bs IH]; simpl; [reflexivity|].
  rewrite byte_of_Z_of_byte. f_equal.
  pose proof (Z_of_byte_range b).
  replace ((Z_of_byte b + 256 * le_to_Z bs) / 256) with (le_to_Z bs); [exact IH|].
  rewrite (Z.mul_comm 256), Z.div_add by lia.
  rewrite (Z.div_small (Z_of_byte b)) by lia. lia.
Qed.

Lemma length_Z_to_le n v : length (Z_to_le n v) = n.
Proof. revert v. induction n; simpl; intros; [reflexivity|]. by rewrite IHn. Qed.

Lemma le_to_Z_range bs : 0 ≤ le_to_Z bs < 256 ^ Z.of_nat (length bs).
Proof.
  induction bs as [|b bs IH]; [simpl; lia|].
  cbn [le_to_Z length]. rewrite Nat2Z.inj_succ, Z.pow_succ_r by lia.
  pose proof (Z_of_byte_range b). lia.
Qed.

Lemma copy_into_vec_to_list n (v : vec byte n) : copy_into n (vec_to_list v) = v.
Proof. induction v as [|b n v IH]; simpl; [reflexivity|]. by rewrite IH. Qed.

Lemma vec_to_list_copy_into n (bs : list byte) :
  length bs = n → vec_to_list (copy_into n bs) = bs.
Proof.
  revert bs. induction n as [|n IH]; intros [|b bs] Hlen; simpl in *; try done.
  f_equal. apply IH. lia.
Qed.

Lemma bytes_of_PublicKeyFromBytes bs :
  length bs = 32%nat → bytes_of (PublicKeyFromBytes bs) = bs.
Proof. apply vec_to_list_copy_into. Qed.

Lemma length_bytes_of key : length (bytes_of key) = 32%nat.
Proof. apply length_vec_to_list. Qed.

Lemma bytes_of_zeroPublicKey : bytes_of zeroPublicKey = replicate 32 Byte.x00.
Proof. apply vec_to_list_replicate. Qed.

(** ** Running the codec on a buffer given by its pieces *)

Lemma bind_run {A B} (m : codec A) (f : A → codec B) buf :
  (m ≫= f) buf = match m buf with Ok (a, buf') => f a buf' | Err e => Err e end.
Proof. reflexivity. Qed.

Lemma ret_run {A} (a : A) buf : (mret a : codec A) buf = Ok (a, buf).
Proof. reflexivity. Qed.

Lemma ReadNBytes_app n a rest :
  length a = n → ReadNBytes n (a ++ rest) = Ok (a, rest).
Proof.
  intros <-. unfold ReadNBytes. rewrite decide_True by (rewrite length_app; lia).
  by rewrite take_app_length, drop_app_length.
Qed.

Lemma ReadUint8_app a rest : length a = 1%nat → ReadUint8 (a ++ rest) = Ok (le_to_Z a, rest).
Proof. intros H. unfold ReadUint8. by rewrite bind_run, ReadNBytes_app. Qed.
Lemma ReadUint32_app a rest : length a = 4%nat → ReadUint32 (a ++ rest) = Ok (le_to_Z a, rest).
Proof. intros H. unfold ReadUint32. by rewrite bind_run, ReadNBytes_app. Qed.
Lemma ReadUint64_app a rest : length a = 8%nat → ReadUint64 (a ++ rest) = Ok (le_to_Z a, rest).
Proof. intros H. unfold ReadUint64. by rewrite bind_run, ReadNBytes_app. Qed.
Lemma ReadBool_app a rest :
  length a = 1%nat → ReadBool (a ++ rest) = Ok (negb (le_to_Z a =? 0), rest).
Proof. intros H. unfold ReadBool. by rewrite bind_run, ReadUint8_app. Qed.

Lemma optional_key_step {A} (v : Z) (k : PublicKey → A) (m : A) x rest :
  length x = 32%nat →
  (if v =? 1 then v0 ← ReadNBytes 32; mret (k (PublicKeyFromBytes v0))
   else _ ← ReadNBytes 32; mret m) (x ++ rest) =
  Ok (if v =? 1 then k (PublicKeyFromBytes x) else m, rest).
Proof. intros Hx. destruct (v =? 1); by rewrite bind_run, ReadNBytes_app. Qed.

Lemma optional_u64_step {A} (v : Z) (k : Z → A) (m : A) x rest :
  length x = 8%nat →
  (if v =? 1 then v0 ← ReadUint64; mret (k v0)
   else _ ← ReadUint64; mret m) (x ++ rest) =
  Ok (if v =? 1 then k (le_to_Z x) else m, rest).
Proof. intros Hx. destruct (v =? 1); by rewrite bind_run, ReadUint64_app. Qed.

Lemma Mint_decode_pieces m0 a b c d e f g rest :
  length a = 4%nat → length b = 32%nat → length c = 8%nat → length d = 1%nat →
  length e = 1%nat → length f = 4%nat → length g = 32%nat →
  Mint.UnmarshalWithDecoder m0 (a ++ b ++ c ++ d ++ e ++ f ++ g ++ rest) =
  Ok (Mint.mk
        (if le_to_Z a =? 1 then Some (PublicKeyFromBytes b) else Mint.MintAuthority m0)
        (le_to_Z c) (le_to_Z d) (negb (le_to_Z e =? 0))
        (if le_to_Z f =? 1 then Some (PublicKeyFromBytes g) else Mint.FreezeAuthority m0),
      rest).
Proof.
  intros Ha Hb Hc Hd He Hf Hg. unfold Mint.UnmarshalWithDecoder.
  rewrite bind_run, ReadUint32_app by done.
  rewrite bind_run, (optional_key_step _ (λ key, Mint.set_MintAuthority (Some key) _)) by done.
  rewrite bind_run, ReadUint64_app by done. cbv zeta.
  rewrite bind_run, ReadUint8_app by done.
  rewrite bind_run, ReadBool_app by done.
  rewrite bind_run, ReadUint32_app by done.
  rewrite bind_run, (optional_key_step _ (λ key, Mint.set_FreezeAuthority (Some key) _)) by done.
  rewrite ret_run. destruct m0; by destruct (le_to_Z a =? 1), (le_to_Z f =? 1).
Qed.

Lemma Account_decode_pieces a0 m o a f1 d s f2 n da f3 c rest :
  length m = 32%nat → length o = 32%nat → length a = 8%nat →
  length f1 = 4%nat → length d = 32%nat → length s = 1%nat →
  length f2 = 4%nat → length n = 8%nat → length da = 8%nat →
  length f3 = 4%nat → length c = 32%nat →
  Account.UnmarshalWithDecoder a0
    (m ++ o ++ a ++ f1 ++ d ++ s ++ f2 ++ n ++ da ++ f3 ++ c ++ rest) =
  Ok (Account.mk (PublicKeyFromBytes m) (PublicKeyFromBytes o) (le_to_Z a)
        (if le_to_Z f1 =? 1 then Some (PublicKeyFromBytes d) else Account.Delegate a0)
        (le_to_Z s)
        (if le_to_Z f2 =? 1 then Some (le_to_Z n) else Account.IsNative a0)
        (le_to_Z da)
        (if le_to_Z f3 =? 1 then Some (PublicKeyFromBytes c) else Account.CloseAuthority a0),
      rest).
Proof.
  intros Hm Ho Ha Hf1 Hd Hs Hf2 Hn Hda Hf3 Hc. unfold Account.UnmarshalWithDecoder.
  rewrite bind_run, ReadNBytes_app by done. cbv zeta.
  rewrite bind_run, ReadNBytes_app by done.
  rewrite bind_run, ReadUint64_app by done.
  rewrite bind_run, ReadUint32_app by done.
  rewrite bind_run, (optional_key_step _ (λ key, Account.set_Delegate (Some key) _)) by done.
  rewrite bind_run, ReadUint8_app by done.
  rewrite bind_run, ReadUint32_app by done.
  rewrite bind_run, (optional_u64_step _ (λ v, Account.set_IsNative (Some v) _)) by done.
  rewrite bind_run, ReadUint64_app by done.
  rewrite bind_run, ReadUint32_app by done.
  rewrite bind_run, (optional_key_step _ (λ key, Account.set_CloseAuthority (Some key) _)) by done.
  rewrite ret_run. destruct a0.
  by destruct (le_to_Z f1 =? 1), (le_to_Z f2 =? 1), (le_to_Z f3 =? 1).
Qed.

(** ** What the encoders write *)

Lemma WriteBytes_run bs out : WriteBytes bs out = Ok (tt, out ++ bs).
Proof. reflexivity. Qed.

Lemma Encode_keys_run n (keys : vec PublicKey n) out :
  Multisig.Encode_keys keys out = Ok (tt, out ++ keys_wire keys).
Proof.
  revert out. induction keys as [|key n keys IH]; intros out.
  - cbn. by rewrite app_nil_r.
  - cbn [Multisig.Encode_keys keys_wire].
    rewrite bind_run, WriteBytes_run, IH. by rewrite <- app_assoc.
Qed.

Ltac run_writes :=
  unfold WriteBool, WriteUint8, WriteUint32, WriteUint64,
    encodeOptional_key, encodeOptional_u64;
  cbv zeta;
  repeat first [ rewrite bind_run | rewrite WriteBytes_run | rewrite Encode_keys_run ];
  rewrite ?bytes_of_zeroPublicKey, <- ?app_assoc;
  reflexivity.

Lemma Mint_encode_run (m : Mint.Mint) out :
  Mint.MarshalWithEncoder m out =
  Ok (tt, out ++ encodeOptional_key (Mint.MintAuthority m)
              ++ Z_to_le 8 (Mint.Supply m)
              ++ Z_to_le 1 (Mint.Decimals m)
              ++ Z_to_le 1 (if Mint.IsInitialized m then 1 else 0)
              ++ encodeOptional_key (Mint.FreezeAuthority m)).
Proof.
  destruct m as [ma s d i fa]. unfold Mint.MarshalWithEncoder.
  cbn [Mint.MintAuthority Mint.Supply Mint.Decimals Mint.IsInitialized
       Mint.FreezeAuthority].
  destruct ma, fa; run_writes.
Qed.

Lemma Account_encode_run (a : Account.Account) out :
  Account.MarshalWithEncoder a out =
  Ok (tt, out ++ bytes_of (Account.Mint a)
              ++ bytes_of (Account.Owner a)
              ++ Z_to_le 8 (Account.Amount a)
              ++ encodeOptional_key (Account.Delegate a)
              ++ Z_to_le 1 (Account.State a)
              ++ encodeOptional_u64 (Account.IsNative a)
              ++ Z_to_le 8 (Account.DelegatedAmount a)
              ++ encodeOptional_key (Account.CloseAuthority a)).
Proof.
  destruct a as [m o a d s n da c]. unfold Account.MarshalWithEncoder.
  cbn [Account.Mint Account.Owner Account.Amount Account.Delegate Account.State
       Account.IsNative Account.DelegatedAmount Account.CloseAuthority].
  destruct d, n, c; run_writes.
Qed.

Lemma Multisig_encode_run n (obj : Multisig.Multisig n) out :
  Multisig.MarshalWithEncoder obj out =
  Ok (tt, out ++ Z_to_le 1 (Multisig.M obj)
              ++ Z_to_le 1 (Multisig.N obj)
              ++ Z_to_le 1 (if Multisig.IsInitialized obj then 1 else 0)
              ++ keys_wire (Multisig.Signers obj)).
Proof.
  destruct obj as [m k i s]. unfold Multisig.MarshalWithEncoder.
  cbn [Multisig.M Multisig.N Multisig.IsInitialized Multisig.Signers].
  unfold Multisig.Encode_uint8, Multisig.Encode_bool.
  rewrite !bind_run. run_writes.
Qed.

(** ** Buffers as pieces of known length *)

Lemma split_at (n : nat) (buf : list byte) :
  (n ≤ length buf)%nat →
  ∃ a rest, buf = a ++ rest ∧ length a = n ∧ length rest = (length buf - n)%nat.
Proof.
  intros Hn. exists (take n buf), (drop n buf).
  rewrite take_drop, length_take, length_drop. repeat split; lia.
Qed.

Lemma drop_skip (n : nat) (a rest : list byte) (off : nat) :
  length a = n → (n ≤ off)%nat → drop off (a ++ rest) = drop (off - n) rest.
Proof. intros <- Hle. by apply drop_app_ge. Qed.

Lemma field_skip (n : nat) (a rest : list byte) (off len : nat) :
  length a = n → (n ≤ off)%nat →
  field off len (a ++ rest) = field (off - n) len rest.
Proof. intros Ha Hle. unfold field. by rewrite (drop_skip n). Qed.

Lemma field_here (a rest : list byte) (len : nat) :
  length a = len → field 0 len (a ++ rest) = a.
Proof. intros <-. unfold field. by rewrite drop_0, take_app_length. Qed.

Lemma field_all (a : list byte) (len : nat) :
  length a = len → field 0 len a = a.
Proof. intros <-. unfold field. by rewrite drop_0, take_ge. Qed.

Lemma length_encodeOptional_key x : length (encodeOptional_key x) = 36%nat.
Proof.
  destruct x; unfold encodeOptional_key;
    by rewrite length_app, length_Z_to_le, ?length_bytes_of, ?length_replicate.
Qed.

Lemma length_encodeOptional_u64 x : length (encodeOptional_u64 x) = 12%nat.
Proof.
  destruct x; unfold encodeOptional_u64;
    by rewrite length_app, !length_Z_to_le, ?length_replicate.
Qed.

Lemma length_keys_wire n (keys : vec PublicKey n) :
  length (keys_wire keys) = (32 * n)%nat.
Proof.
  induction keys as [|key n keys IH]; [reflexivity|].
  cbn [keys_wire]. rewrite length_app, length_bytes_of, IH. lia.
Qed.

Lemma length_pair (a b : list byte) (n m : nat) :
  length a = n → length b = m → length (a ++ b) = (n + m)%nat.
Proof. intros <- <-. apply length_app. Qed.

(** The length of a piece, from a hypothesis or from the codec's shape. *)
Ltac len :=
  first
    [ eassumption
    | apply length_Z_to_le
    | apply length_bytes_of
    | apply length_encodeOptional_key
    | apply length_encodeOptional_u64
    | apply length_replicate
    | apply length_keys_wire
    | apply length_pair; len
    | solve [ rewrite ?length_app; lia ] ].

(** Walk to the fields of a buffer given as pieces, dropping the pieces
    before each. *)
Ltac walk :=
  repeat match goal with
  | |- context [field 0 ?n (?a ++ ?r)] => rewrite (field_here a r n) by len
  | |- context [field ?off ?n (?a ++ ?r)] =>
      erewrite (field_skip _ a r off n); [ | len | cbn; lia ];
      cbn [Nat.sub Nat.add]; rewrite ?Nat.sub_0_r
  | |- context [drop 0 ?r] => rewrite (drop_0 r)
  | |- context [drop ?off (?a ++ ?r)] =>
      erewrite (drop_skip _ a r off); [ | len | cbn; lia ];
      cbn [Nat.sub Nat.add]; rewrite ?Nat.sub_0_r
  end.

(** ** C6: the encoders write records of fixed size *)

(** C6.  Every [Mint] is encoded as exactly 82 bytes and every [Account] as
    exactly 165 bytes, whatever optional fields are present: each optional
    field fills its whole slot, and the slot of an absent one is a zero flag
    followed by as many zero bytes as the payload has. *)
Theorem encode_fixed_size :
  (∀ m : Mint.Mint, ∃ bytes,
      written (Mint.MarshalWithEncoder m) = Ok bytes
      ∧ length bytes = 82%nat
      ∧ field 0 36 bytes = encodeOptional_key (Mint.MintAuthority m)
      ∧ field 46 36 bytes = encodeOptional_key (Mint.FreezeAuthority m))
  ∧ (∀ a : Account.Account, ∃ bytes,
      written (Account.MarshalWithEncoder a) = Ok bytes
      ∧ length bytes = 165%nat
      ∧ field 72 36 bytes = encodeOptional_key (Account.Delegate a)
      ∧ field 109 12 bytes = encodeOptional_u64 (Account.IsNative a)
      ∧ field 129 36 bytes = encodeOptional_key (Account.CloseAuthority a))
  ∧ encodeOptional_key None = Z_to_le 4 0 ++ replicate 32 Byte.x00
  ∧ encodeOptional_u64 None = Z_to_le 4 0 ++ replicate 8 Byte.x00
  ∧ Z_to_le 4 0 = replicate 4 Byte.x00.
Proof.
  split; [|split; [|done]].
  - intros m. eexists. unfold written. rewrite Mint_encode_run.
    cbn [app]. split; [reflexivity|]. split; [|split].
    + rewrite !length_app, !length_encodeOptional_key, !length_Z_to_le. done.
    + by walk.
    + walk. apply field_all. len.
  - intros a. eexists. unfold written. rewrite Account_encode_run.
    cbn [app]. split; [reflexivity|]. split; [|split; [|split]].
    + rewrite !length_app, !length_encodeOptional_key, !length_encodeOptional_u64,
        !length_Z_to_le, !length_bytes_of. done.
    + by walk.
    + by walk.
    + walk. apply field_all. len.
Qed.

(** ** C7: short buffers and trailing bytes *)

Lemma ReadNBytes_run n buf :
  ReadNBytes n buf =
  if decide (n ≤ length buf)%nat then Ok (take n buf, drop n buf)
  else Err ErrUnexpectedEOF.
Proof. reflexivity. Qed.

Lemma ReadUint8_run buf :
  ReadUint8 buf =
  if decide (1 ≤ length buf)%nat then Ok (le_to_Z (take 1 buf), drop 1 buf)
  else Err ErrUnexpectedEOF.
Proof. unfold ReadUint8. rewrite bind_run, ReadNBytes_run. by case_decide. Qed.

Lemma ReadUint32_run buf :
  ReadUint32 buf =
  if decide (4 ≤ length buf)%nat then Ok (le_to_Z (take 4 buf), drop 4 buf)
  else Err ErrUnexpectedEOF.
Proof. unfold ReadUint32. rewrite bind_run, ReadNBytes_run. by case_decide. Qed.

Lemma ReadUint64_run buf :
  ReadUint64 buf =
  if decide (8 ≤ length buf)%nat then Ok (le_to_Z (take 8 buf), drop 8 buf)
  else Err ErrUnexpectedEOF.
Proof. unfold ReadUint64. rewrite bind_run, ReadNBytes_run. by case_decide. Qed.

Lemma ReadBool_run buf :
  ReadBool buf =
  if decide (1 ≤ length buf)%nat
  then Ok (negb (le_to_Z (take 1 buf) =? 0), drop 1 buf)
  else Err ErrUnexpectedEOF.
Proof. unfold ReadBool. rewrite bind_run, ReadUint8_run. by case_decide. Qed.

(** One read of a decoder: either the buffer is too short and the whole
    decode stops with [ErrUnexpectedEOF], or the read consumed its bytes. *)
Ltac read_or_eof :=
  rewrite bind_run;
  first [ rewrite ReadNBytes_run | rewrite ReadUint8_run | rewrite ReadUint32_run
        | rewrite ReadUint64_run | rewrite ReadBool_run ];
  case_decide; [ cbv zeta | reflexivity ].

Ltac branch_on_flag :=
  rewrite bind_run;
  match goal with
  | |- context [if ?v =? 1 then _ else _] => destruct (v =? 1)
  end.

Ltac too_short :=
  exfalso; rewrite ?length_drop in *; lia.

Lemma Mint_short m0 buf :
  (length buf < 82)%nat → Mint.UnmarshalWithDecoder m0 buf = Err ErrUnexpectedEOF.
Proof.
  intros Hshort. unfold Mint.UnmarshalWithDecoder.
  read_or_eof.
  branch_on_flag; read_or_eof; rewrite ret_run;
    do 4 read_or_eof;
    branch_on_flag; read_or_eof; too_short.
Qed.

Lemma Account_short a0 buf :
  (length buf < 165)%nat → Account.UnmarshalWithDecoder a0 buf = Err ErrUnexpectedEOF.
Proof.
  intros Hshort. unfold Account.UnmarshalWithDecoder.
  do 4 read_or_eof.
  branch_on_flag; read_or_eof; rewrite ret_run;
    do 2 read_or_eof;
    (branch_on_flag; read_or_eof; rewrite ret_run;
     do 2 read_or_eof;
     branch_on_flag; read_or_eof; too_short).
Qed.

Lemma Decode_keys_short n buf :
  (length buf < 32 * n)%nat → Multisig.Decode_keys n buf = Err ErrUnexpectedEOF.
Proof.
  revert buf. induction n as [|n IH]; intros buf Hshort; [lia|].
  cbn [Multisig.Decode_keys].
  rewrite bind_run, ReadNBytes_run. case_decide; [|reflexivity].
  rewrite bind_run, IH; [reflexivity|]. rewrite length_drop. lia.
Qed.

Lemma Multisig_short n (obj : Multisig.Multisig n) buf :
  (length buf < 3 + 32 * n)%nat →
  Multisig.UnmarshalWithDecoder obj buf = Err ErrUnexpectedEOF.
Proof.
  intros Hshort. unfold Multisig.UnmarshalWithDecoder, Multisig.Decode_uint8,
    Multisig.Decode_bool.
  do 3 read_or_eof.
  rewrite bind_run, Decode_keys_short; [reflexivity|].
  rewrite ?length_drop in *. lia.
Qed.

(** A buffer that holds a whole record, cut into the record's pieces. *)
Ltac cut_at buf n a rest Ha :=
  let Hr := fresh "Hrest" in
  destruct (split_at n buf) as (a & rest & -> & Ha & Hr); [ lia | ];
  rewrite ?length_app in *.

Lemma Mint_decode_fields m0 buf :
  (82 ≤ length buf)%nat →
  Mint.UnmarshalWithDecoder m0 buf =
  Ok (Mint.mk
        (if le_to_Z (field 0 4 buf) =? 1
         then Some (PublicKeyFromBytes (field 4 32 buf))
         else Mint.MintAuthority m0)
        (le_to_Z (field 36 8 buf))
        (le_to_Z (field 44 1 buf))
        (negb (le_to_Z (field 45 1 buf) =? 0))
        (if le_to_Z (field 46 4 buf) =? 1
         then Some (PublicKeyFromBytes (field 50 32 buf))
         else Mint.FreezeAuthority m0),
      drop 82 buf).
Proof.
  intros Hlen.
  cut_at buf 4%nat a r1 Ha. cut_at r1 32%nat b r2 Hb. cut_at r2 8%nat c r3 Hc.
  cut_at r3 1%nat d r4 Hd. cut_at r4 1%nat e r5 He. cut_at r5 4%nat f r6 Hf.
  cut_at r6 32%nat g rest Hg.
  rewrite Mint_decode_pieces by done.
  by walk.
Qed.

Lemma Account_decode_fields a0 buf :
  (165 ≤ length buf)%nat →
  Account.UnmarshalWithDecoder a0 buf =
  Ok (Account.mk
        (PublicKeyFromBytes (field 0 32 buf))
        (PublicKeyFromBytes (field 32 32 buf))
        (le_to_Z (field 64 8 buf))
        (if le_to_Z (field 72 4 buf) =? 1
         then Some (PublicKeyFromBytes (field 76 32 buf))
         else Account.Delegate a0)
        (le_to_Z (field 108 1 buf))
        (if le_to_Z (field 109 4 buf) =? 1
         then Some (le_to_Z (field 113 8 buf))
         else Account.IsNative a0)
        (le_to_Z (field 121 8 buf))
        (if le_to_Z (field 129 4 buf) =? 1
         then Some (PublicKeyFromBytes (field 133 32 buf))
         else Account.CloseAuthority a0),
      drop 165 buf).
Proof.
  intros Hlen.
  cut_at buf 32%nat m r1 Hm. cut_at r1 32%nat o r2 Ho. cut_at r2 8%nat a r3 Ha.
  cut_at r3 4%nat f1 r4 Hf1. cut_at r4 32%nat d r5 Hd. cut_at r5 1%nat s r6 Hs.
  cut_at r6 4%nat f2 r7 Hf2. cut_at r7 8%nat n r8 Hn. cut_at r8 8%nat da r9 Hda.
  cut_at r9 4%nat f3 r10 Hf3. cut_at r10 32%nat c rest Hc.
  rewrite Account_decode_pieces by done.
  by walk.
Qed.

Lemma Decode_keys_ok n buf :
  (32 * n ≤ length buf)%nat →
  ∃ keys, Multisig.Decode_keys n buf = Ok (keys, drop (32 * n) buf)
          ∧ keys_wire keys = take (32 * n) buf.
Proof.
  revert buf. induction n as [|n IH]; intros buf Hlen.
  - exists [#]. by rewrite Nat.mul_0_r, drop_0, take_0.
  - cut_at buf 32%nat a rest Ha.
    destruct (IH rest) as (keys & Hkeys & Hwire); [lia|].
    exists (PublicKeyFromBytes a ::: keys).
    replace (32 * S n)%nat with (32 + 32 * n)%nat by lia.
    cbn [Multisig.Decode_keys keys_wire].
    rewrite bind_run, ReadNBytes_app by done.
    rewrite bind_run, Hkeys, ret_run.
    rewrite bytes_of_PublicKeyFromBytes, Hwire by done.
    by rewrite drop_app_add', take_app_add'.
Qed.

Lemma Multisig_decode_fields n (obj : Multisig.Multisig n) buf :
  (3 + 32 * n ≤ length buf)%nat →
  ∃ signers,
    Multisig.UnmarshalWithDecoder obj buf =
    Ok (Multisig.mk
          (le_to_Z (field 0 1 buf))
          (le_to_Z (field 1 1 buf))
          (negb (le_to_Z (field 2 1 buf) =? 0))
          signers,
        drop (3 + 32 * n) buf)
    ∧ keys_wire signers = field 3 (32 * n) buf.
Proof.
  intros Hlen.
  cut_at buf 1%nat a r1 Ha. cut_at r1 1%nat b r2 Hb. cut_at r2 1%nat c r3 Hc.
  destruct (Decode_keys_ok n r3) as (keys & Hkeys & Hwire); [lia|].
  exists keys. unfold Multisig.UnmarshalWithDecoder, Multisig.Decode_uint8,
    Multisig.Decode_bool.
  rewrite bind_run, ReadUint8_app by done.
  rewrite bind_run, ReadUint8_app by done.
  rewrite bind_run, ReadBool_app by done.
  rewrite bind_run, Hkeys, ret_run. split.
  - by walk.
  - walk. unfold field. by rewrite drop_0.
Qed.

(** C7.  A buffer shorter than a record's fixed wire size (82 bytes for
    [Mint], 165 for [Account], 3 + 32 * MAX_SIGNERS for [Multisig]) makes the
    record's decoder fail with [ErrUnexpectedEOF], whatever the flags in it
    say and wherever the cut falls; a buffer that holds the record and more
    is decoded, and the bytes after the record are left unread. *)
Theorem decode_short_buffer_is_EOF :
  (∀ m0 buf, (length buf < 82)%nat →
     Mint.UnmarshalWithDecoder m0 buf = Err ErrUnexpectedEOF)
  ∧ (∀ m0 buf, (82 ≤ length buf)%nat →
     ∃ m, Mint.UnmarshalWithDecoder m0 buf = Ok (m, drop 82 buf))
  ∧ (∀ a0 buf, (length buf < 165)%nat →
     Account.UnmarshalWithDecoder a0 buf = Err ErrUnexpectedEOF)
  ∧ (∀ a0 buf, (165 ≤ length buf)%nat →
     ∃ a, Account.UnmarshalWithDecoder a0 buf = Ok (a, drop 165 buf))
  ∧ (∀ n (obj : Multisig.Multisig n) buf, (length buf < 3 + 32 * n)%nat →
     Multisig.UnmarshalWithDecoder obj buf = Err ErrUnexpectedEOF)
  ∧ (∀ n (obj : Multisig.Multisig n) buf, (3 + 32 * n ≤ length buf)%nat →
     ∃ obj', Multisig.UnmarshalWithDecoder obj buf = Ok (obj', drop (3 + 32 * n) buf)).
Proof.
  repeat split.
  - apply Mint_short.
  - intros m0 buf Hlen. eexists. by apply Mint_decode_fields.
  - apply Account_short.
  - intros a0 buf Hlen. eexists. by apply Account_decode_fields.
  - intros n obj buf. apply Multisig_short.
  - intros n obj buf Hlen.
    destruct (Multisig_decode_fields n obj buf Hlen) as (signers & Hdec & _).
    eexists. exact Hdec.
Qed.

(** ** C5: a presence flag other than 1 means absent *)

(** C5, as stated for every decode, fails: the decoders never assign an
    optional field whose flag is not 1.  Decoding the 82-byte buffer whose
    first presence flag is 2 into a [Mint] that already holds a mint authority
    raises no error and leaves that authority in place; the field does not
    come out as [None]. *)
Lemma flag_2_keeps_receiver_field :
  le_to_Z (field 0 4 sample_flag2_mint) = 2
  ∧ ∃ m, Mint.UnmarshalWithDecoder sample_used_receiver sample_flag2_mint
         = Ok (m, [])
         ∧ Mint.MintAuthority m = Some (sample_key Byte.x11)
         ∧ Mint.MintAuthority m ≠ None.
Proof.
  split; [reflexivity|].
  exists (Mint.mk (Some (sample_key Byte.x11)) 0 0 false
            (Some (sample_key Byte.x12))).
  split; [reflexivity|]. split; [reflexivity|discriminate].
Qed.

(** C5, amended.  Decoding a [Mint] or an [Account] into a fresh record: an
    optional field whose 4-byte presence flag is not 1 (0, 2, anything else)
    comes out as [None], without an error, and its payload slot is read like
    any other: the decoder ends after the whole record (82 or 165 bytes)
    whatever the flags are. *)
Theorem flag_other_than_1_decodes_to_None :
  (∀ buf, (82 ≤ length buf)%nat →
     ∃ m, decode_Mint buf = Ok (m, drop 82 buf)
          ∧ (le_to_Z (field 0 4 buf) ≠ 1 → Mint.MintAuthority m = None)
          ∧ (le_to_Z (field 46 4 buf) ≠ 1 → Mint.FreezeAuthority m = None))
  ∧ (∀ buf, (165 ≤ length buf)%nat →
     ∃ a, decode_Account buf = Ok (a, drop 165 buf)
          ∧ (le_to_Z (field 72 4 buf) ≠ 1 → Account.Delegate a = None)
          ∧ (le_to_Z (field 109 4 buf) ≠ 1 → Account.IsNative a = None)
          ∧ (le_to_Z (field 129 4 buf) ≠ 1 → Account.CloseAuthority a = None)).
Proof.
  split.
  - intros buf Hlen. eexists. split; [by apply Mint_decode_fields|].
    cbn [Mint.MintAuthority Mint.FreezeAuthority Mint.zero].
    split; intros Hflag; apply Z.eqb_neq in Hflag; by rewrite Hflag.
  - intros buf Hlen. eexists. split; [by apply Account_decode_fields|].
    cbn [Account.Delegate Account.IsNative Account.CloseAuthority Account.zero].
    repeat split; intros Hflag; apply Z.eqb_neq in Hflag; by rewrite Hflag.
Qed.

(** ** C1: re-encoding a decoded buffer *)

Lemma zero_bytes_spec bs :
  zero_bytes bs = true ↔ bs = replicate (length bs) Byte.x00.
Proof.
  induction bs as [|b bs IH]; [done|].
  cbn [zero_bytes forallb length replicate].
  rewrite andb_true_iff, bool_decide_eq_true.
  fold (zero_bytes bs). rewrite IH. split.
  - intros [-> <-]. done.
  - intros [= -> Hbs]. done.
Qed.

Lemma le_to_Z_inj_const bs n v :
  length bs = n → le_to_Z (Z_to_le n v) = v → (Z_to_le n v = bs ↔ le_to_Z bs = v).
Proof.
  intros Hlen Hv. split.
  - by intros <-.
  - intros <-. by rewrite Z_to_le_le_to_Z.
Qed.

Lemma app_eq_pieces (a a' r r' : list byte) :
  length a = length a' → (a ++ r = a' ++ r' ↔ a = a' ∧ r = r').
Proof.
  intros Hlen. split.
  - by apply app_inj_1.
  - by intros [-> ->].
Qed.

(** An optional key's slot comes back from decoding and encoding exactly
    when it is canonical. *)
Lemma optional_key_roundtrip a b :
  length a = 4%nat → length b = 32%nat →
  encodeOptional_key
    (if le_to_Z a =? 1 then Some (PublicKeyFromBytes b) else None) = a ++ b
  ↔ canonical_optional (a ++ b) = true.
Proof.
  intros Ha Hb. unfold canonical_optional.
  rewrite take_app_length', drop_app_length' by done.
  destruct (le_to_Z a =? 1) eqn:Hflag; cbn [orb encodeOptional_key].
  - apply Z.eqb_eq in Hflag.
    rewrite bytes_of_PublicKeyFromBytes by done.
    rewrite <- Hflag, Z_to_le_le_to_Z by done. done.
  - rewrite andb_true_iff, Z.eqb_eq, zero_bytes_spec, Hb.
    rewrite <- (le_to_Z_inj_const a 4 0) by done.
    rewrite app_eq_pieces by (by rewrite length_Z_to_le).
    split; intros [H1 H2]; by split.
Qed.

Lemma optional_u64_roundtrip a b :
  length a = 4%nat → length b = 8%nat →
  encodeOptional_u64 (if le_to_Z a =? 1 then Some (le_to_Z b) else None) = a ++ b
  ↔ canonical_optional (a ++ b) = true.
Proof.
  intros Ha Hb. unfold canonical_optional.
  rewrite take_app_length', drop_app_length' by done.
  destruct (le_to_Z a =? 1) eqn:Hflag; cbn [orb encodeOptional_u64].
  - apply Z.eqb_eq in Hflag.
    rewrite (Z_to_le_le_to_Z b) by done.
    rewrite <- Hflag, Z_to_le_le_to_Z by done. done.
  - rewrite andb_true_iff, Z.eqb_eq, zero_bytes_spec, Hb.
    rewrite <- (le_to_Z_inj_const a 4 0) by done.
    rewrite app_eq_pieces by (by rewrite length_Z_to_le).
    split; intros [H1 H2]; by split.
Qed.

(** A boolean's byte comes back exactly when it is 0 or 1. *)
Lemma bool_roundtrip e :
  length e = 1%nat →
  Z_to_le 1 (if negb (le_to_Z e =? 0) then 1 else 0) = e
  ↔ canonical_bool e = true.
Proof.
  intros He. unfold canonical_bool. rewrite Z.ltb_lt.
  pose proof (le_to_Z_range e) as Hrange.
  destruct (le_to_Z e =? 0) eqn:Hz; cbn [negb].
  - apply Z.eqb_eq in Hz. rewrite (le_to_Z_inj_const e 1 0) by done. lia.
  - apply Z.eqb_neq in Hz. rewrite (le_to_Z_inj_const e 1 1) by done. lia.
Qed.

Ltac same_len :=
  rewrite ?length_app, ?length_encodeOptional_key, ?length_encodeOptional_u64,
    ?length_Z_to_le, ?length_bytes_of, ?length_keys_wire;
  lia.

Lemma Ok_eq_iff {A} (x y : A) : Ok x = Ok y ↔ x = y.
Proof. split; [by intros [= ->]|by intros ->]. Qed.

Lemma Mint_roundtrip buf :
  length buf = 82%nat →
  reencode decode_Mint Mint.MarshalWithEncoder buf = Ok buf
  ↔ canonical_Mint buf = true.
Proof.
  intros Hlen.
  cut_at buf 4%nat a r1 Ha. cut_at r1 32%nat b r2 Hb. cut_at r2 8%nat c r3 Hc.
  cut_at r3 1%nat d r4 Hd. cut_at r4 1%nat e r5 He. cut_at r5 4%nat f r6 Hf.
  cut_at r6 32%nat g rest Hg.
  assert (rest = []) as -> by (apply nil_length_inv; lia).
  unfold reencode, decode_Mint, written, canonical_Mint.
  rewrite Mint_decode_pieces, Mint_encode_run by done.
  cbn [app Mint.MintAuthority Mint.Supply Mint.Decimals Mint.IsInitialized
       Mint.FreezeAuthority Mint.zero].
  rewrite (Z_to_le_le_to_Z c), (Z_to_le_le_to_Z d) by done.
  rewrite app_nil_r, (app_assoc a b), Ok_eq_iff.
  walk. rewrite (field_all (f ++ g) 36) by len.
  rewrite !app_eq_pieces by same_len.
  rewrite !andb_true_iff.
  rewrite optional_key_roundtrip, optional_key_roundtrip, bool_roundtrip by done.
  intuition.
Qed.

Lemma Account_roundtrip buf :
  length buf = 165%nat →
  reencode decode_Account Account.MarshalWithEncoder buf = Ok buf
  ↔ canonical_Account buf = true.
Proof.
  intros Hlen.
  cut_at buf 32%nat m r1 Hm. cut_at r1 32%nat o r2 Ho. cut_at r2 8%nat a r3 Ha.
  cut_at r3 4%nat f1 r4 Hf1. cut_at r4 32%nat d r5 Hd. cut_at r5 1%nat s r6 Hs.
  cut_at r6 4%nat f2 r7 Hf2. cut_at r7 8%nat n r8 Hn. cut_at r8 8%nat da r9 Hda.
  cut_at r9 4%nat f3 r10 Hf3. cut_at r10 32%nat c rest Hc.
  assert (rest = []) as -> by (apply nil_length_inv; lia).
  unfold reencode, decode_Account, written, canonical_Account.
  rewrite Account_decode_pieces, Account_encode_run by done.
  cbn [app Account.Mint Account.Owner Account.Amount Account.Delegate
       Account.State Account.IsNative Account.DelegatedAmount
       Account.CloseAuthority Account.zero].
  rewrite !bytes_of_PublicKeyFromBytes by done.
  rewrite (Z_to_le_le_to_Z a), (Z_to_le_le_to_Z s), (Z_to_le_le_to_Z da) by done.
  rewrite app_nil_r, (app_assoc f1 d), (app_assoc f2 n), Ok_eq_iff.
  walk. rewrite (field_all (f3 ++ c) 36) by len.
  rewrite !app_eq_pieces by same_len.
  rewrite !andb_true_iff.
  rewrite !optional_key_roundtrip, optional_u64_roundtrip by done.
  intuition.
Qed.

Lemma Multisig_roundtrip n buf :
  length buf = (3 + 32 * n)%nat →
  reencode (decode_Multisig n) Multisig.MarshalWithEncoder buf = Ok buf
  ↔ canonical_Multisig buf = true.
Proof.
  intros Hlen.
  destruct (Multisig_decode_fields n (Multisig.zero n) buf) as (keys & Hdec & Hwire);
    [lia|].
  unfold reencode, decode_Multisig, written, canonical_Multisig.
  rewrite Hdec, Multisig_encode_run.
  cbn [app Multisig.M Multisig.N Multisig.IsInitialized Multisig.Signers].
  rewrite Hwire. clear Hdec Hwire keys.
  cut_at buf 1%nat a r1 Ha. cut_at r1 1%nat b r2 Hb. cut_at r2 1%nat c r3 Hc.
  walk. rewrite (field_all r3 (32 * n)) by lia.
  rewrite (Z_to_le_le_to_Z a), (Z_to_le_le_to_Z b) by done.
  rewrite Ok_eq_iff, !app_eq_pieces by same_len.
  rewrite bool_roundtrip by done.
  intuition.
Qed.

(** C1, as stated, fails: a [Mint] buffer of 82 bytes whose first presence
    flag is 2 is decoded (the field is absent) and encoded again as 82 zero
    bytes, which is another buffer. *)
Lemma reencode_flag2_differs :
  length sample_flag2_mint = 82%nat
  ∧ reencode decode_Mint Mint.MarshalWithEncoder sample_flag2_mint
    = Ok (replicate 82 Byte.x00)
  ∧ replicate 82 Byte.x00 ≠ sample_flag2_mint.
Proof. repeat split. discriminate. Qed.

(** C1, amended.  For a buffer of a record's exact fixed size (82 bytes for
    [Mint], 165 for [Account], 3 + 32 * MAX_SIGNERS for [Multisig]), decoding
    it into a fresh record and encoding the record gives the buffer back
    exactly when the buffer is canonical: every optional field's presence
    flag is 1, or is 0 over an all-zero payload, and every boolean byte is 0
    or 1. *)
Theorem reencode_iff_canonical :
  (∀ buf, length buf = 82%nat →
     reencode decode_Mint Mint.MarshalWithEncoder buf = Ok buf
     ↔ canonical_Mint buf = true)
  ∧ (∀ buf, length buf = 165%nat →
     reencode decode_Account Account.MarshalWithEncoder buf = Ok buf
     ↔ canonical_Account buf = true)
  ∧ (∀ MAX_SIGNERS buf, length buf = (3 + 32 * MAX_SIGNERS)%nat →
     reencode (decode_Multisig MAX_SIGNERS) Multisig.MarshalWithEncoder buf = Ok buf
     ↔ canonical_Multisig buf = true).
Proof.
  split; [|split].
  - apply Mint_roundtrip.
  - apply Account_roundtrip.
  - apply Multisig_roundtrip.
Qed.

Lemma reencode_iff_canonical_witness :
  reencode decode_Mint Mint.MarshalWithEncoder sample_mint = Ok sample_mint.
Proof.
  apply (proj1 reencode_iff_canonical sample_mint); reflexivity.
Defined.

Lemma decode_short_buffer_is_EOF_witness :
  Mint.UnmarshalWithDecoder Mint.zero (take 81 sample_mint) = Err ErrUnexpectedEOF
  ∧ ∃ m, Mint.UnmarshalWithDecoder Mint.zero (sample_mint ++ sample_flag2_mint)
         = Ok (m, sample_flag2_mint).
Proof.
  destruct decode_short_buffer_is_EOF as (Hshort & Hlong & _). split.
  - apply Hshort. vm_compute. lia.
  - apply (Hlong Mint.zero (sample_mint ++ sample_flag2_mint)). vm_compute. lia.
Defined.

Lemma flag_other_than_1_decodes_to_None_witness :
  ∃ m, decode_Mint sample_flag2_mint = Ok (m, [])
       ∧ Mint.MintAuthority m = None.
Proof.
  destruct (proj1 flag_other_than_1_decodes_to_None sample_flag2_mint)
    as (m & Hm & Hauthority & _).
  - vm_compute. lia.
  - exists m. split; [exact Hm|]. apply Hauthority. vm_compute. discriminate.
Defined.

(** ** The builders: the derive-if-unset step *)

Lemma method_bind_run {A B} (m : method A) (f : A → method B) s :
  (m ≫= f) s =
  match m s with
  | (Returns a, s') => f a s'
  | (Panics p, s') => (Panics p, s')
  end.
Proof. reflexivity. Qed.

Lemma index_run (s : AccountMetaSlice) i acc :
  s !! i = Some acc → index i s = (Returns acc, s).
Proof. intros H. unfold index. by rewrite H. Qed.

Lemma assign_run (s : AccountMetaSlice) i acc :
  (i < length s)%nat → assign i acc s = (Returns tt, <[i:=acc]> s).
Proof. intros H. unfold assign. by rewrite decide_True. Qed.

Section builders.
Context `{Collaborators}.

Lemma derive_if_unset_set (s : AccountMetaSlice) ata w m p :
  s !! 1%nat = Some ata → nil_or_zero ata = true →
  s !! 2%nat = Some (Some w) → s !! 3%nat = Some (Some m) →
  s !! 5%nat = Some (Some p) →
  derive_if_unset s =
  (Returns tt,
   <[1%nat := Some (WRITE (Meta (derived_address (AccountMeta.PublicKey w)
                                   (AccountMeta.PublicKey m)
                                   (AccountMeta.PublicKey p))))]> s).
Proof.
  intros H1 Hz H2 H3 H5. unfold derive_if_unset, derived_address.
  rewrite method_bind_run, (index_run s 1 ata) by done. rewrite Hz.
  rewrite !method_bind_run, (index_run s 2 (Some w)) by done. cbn [PublicKey_of].
  rewrite !method_bind_run, (index_run s 3 (Some m)) by done. cbn [PublicKey_of].
  rewrite !method_bind_run, (index_run s 5 (Some p)) by done. cbn [PublicKey_of].
  unfold FindAssociatedTokenAddress.
  destruct (FindProgramAddress _ _) as [[address bump] found]. cbn [fst].
  apply assign_run. by apply lookup_lt_Some in H1.
Qed.

Lemma derive_if_unset_keep (s : AccountMetaSlice) ata :
  s !! 1%nat = Some ata → nil_or_zero ata = false →
  derive_if_unset s = (Returns tt, s).
Proof.
  intros H1 Hz. unfold derive_if_unset.
  rewrite method_bind_run, (index_run s 1 ata) by done. by rewrite Hz.
Qed.

(** The step either leaves the list as it is (also when it panics) or
    writes a writable, non-signer role into slot 1. *)
Lemma derive_if_unset_cases (s : AccountMetaSlice) :
  (∃ p, derive_if_unset s = (Panics p, s))
  ∨ (∃ ata, s !! 1%nat = Some ata ∧ nil_or_zero ata = false
            ∧ derive_if_unset s = (Returns tt, s))
  ∨ (∃ ata w m p,
        s !! 1%nat = Some ata ∧ nil_or_zero ata = true
        ∧ s !! 2%nat = Some (Some w) ∧ s !! 3%nat = Some (Some m)
        ∧ s !! 5%nat = Some (Some p)
        ∧ derive_if_unset s =
          (Returns tt,
           <[1%nat := Some (WRITE (Meta (derived_address (AccountMeta.PublicKey w)
                                           (AccountMeta.PublicKey m)
                                           (AccountMeta.PublicKey p))))]> s)).
Proof.
  destruct (s !! 1%nat) as [ata|] eqn:H1.
  2: { left. eexists. unfold derive_if_unset, index.
       rewrite method_bind_run. by rewrite H1. }
  destruct (nil_or_zero ata) eqn:Hz.
  2: { right. left. exists ata. eauto using derive_if_unset_keep. }
  assert (Hpanic : ∀ i, (s !! i = None ∨ s !! i = Some None) →
            ∃ p, (index i ≫= PublicKey_of) s = (Panics p, s)).
  { intros i [Hi|Hi]; eexists; rewrite method_bind_run; unfold index;
      rewrite Hi; reflexivity. }
  destruct (s !! 2%nat) as [[w|]|] eqn:H2.
  2,3: left; destruct (Hpanic 2%nat) as [p Hp]; [rewrite H2; auto|]; exists p;
       unfold derive_if_unset;
       rewrite method_bind_run, (index_run s 1 ata), Hz by done;
       rewrite method_bind_run; by rewrite Hp.
  destruct (s !! 3%nat) as [[m|]|] eqn:H3.
  2,3: left; destruct (Hpanic 3%nat) as [p Hp]; [rewrite H3; auto|]; exists p;
       unfold derive_if_unset;
       rewrite method_bind_run, (index_run s 1 ata), Hz by done;
       rewrite !method_bind_run, (index_run s 2 (Some w)) by done;
       cbn [PublicKey_of]; rewrite method_bind_run; by rewrite Hp.
  destruct (s !! 5%nat) as [[p|]|] eqn:H5.
  2,3: left; destruct (Hpanic 5%nat) as [q Hq]; [rewrite H5; auto|]; exists q;
       unfold derive_if_unset;
       rewrite method_bind_run, (index_run s 1 ata), Hz by done;
       rewrite !method_bind_run, (index_run s 2 (Some w)) by done;
       cbn [PublicKey_of];
       rewrite !method_bind_run, (index_run s 3 (Some m)) by done;
       cbn [PublicKey_of]; rewrite method_bind_run; by rewrite Hq.
  right. right. exists ata, w, m, p. eauto 10 using derive_if_unset_set.
Qed.

End builders.

(** ** The builders: [Build], [Validate] and [ValidateAndBuild] by the step *)

Section builders.
Context `{Collaborators}.

Ltac by_step :=
  intros s; unfold derive_if_unset; rewrite !method_bind_run;
  destruct (index 1 s) as [[ata|p] s1]; [|reflexivity];
  destruct (nil_or_zero ata); reflexivity.

Lemma Create_Build_run :
  ∀ s, Create.Build s =
  match derive_if_unset s with
  | (Returns _, s') =>
      (Returns (mkInstruction s' (TypeIDFromUint8 Instruction_Create)), s')
  | (Panics p, s') => (Panics p, s')
  end.
Proof. unfold Create.Build. by_step. Qed.

Lemma CreateIdempotent_Build_run :
  ∀ s, CreateIdempotent.Build s =
  match derive_if_unset s with
  | (Returns _, s') =>
      (Returns (mkInstruction s' (TypeIDFromUint8 Instruction_CreateIdempotent)), s')
  | (Panics p, s') => (Panics p, s')
  end.
Proof. unfold CreateIdempotent.Build. by_step. Qed.

Lemma Create_Validate_run :
  ∀ s, Create.Validate s =
  match derive_if_unset s with
  | (Returns _, s') => (Returns (range_check 0 s'), s')
  | (Panics p, s') => (Panics p, s')
  end.
Proof. unfold Create.Validate. by_step. Qed.

Lemma CreateIdempotent_Validate_run :
  ∀ s, CreateIdempotent.Validate s =
  match derive_if_unset s with
  | (Returns _, s') => (Returns (range_check 0 s'), s')
  | (Panics p, s') => (Panics p, s')
  end.
Proof. unfold CreateIdempotent.Validate. by_step. Qed.

(** Running the step on its own result changes nothing: slots 2, 3 and 5
    are as they were, so the same address is derived. *)
Lemma derive_if_unset_again (s s' : AccountMetaSlice) :
  derive_if_unset s = (Returns tt, s') → derive_if_unset s' = (Returns tt, s').
Proof.
  intros Hstep.
  destruct (derive_if_unset_cases s)
    as [[p Hp]|[(ata & H1 & Hz & Hs)|(ata & w & m & p & H1 & Hz & H2 & H3 & H5 & Hs)]];
    rewrite Hstep in *; simplify_eq; [done|].
  set (meta := WRITE (Meta _)).
  assert (Hlen : (1 < length s)%nat) by (by apply lookup_lt_Some in H1).
  destruct (nil_or_zero (Some meta)) eqn:Hz'.
  - rewrite (derive_if_unset_set _ (Some meta) w m p); try done.
    + by rewrite list_insert_insert_eq.
    + by apply list_lookup_insert_eq.
    + by rewrite list_lookup_insert_ne.
    + by rewrite list_lookup_insert_ne.
    + by rewrite list_lookup_insert_ne.
  - apply (derive_if_unset_keep _ (Some meta)); [|done].
    by apply list_lookup_insert_eq.
Qed.

End builders.

Lemma range_check_first (accs : AccountMetaSlice) (k i : nat) :
  range_check k accs = Some (NotSet i)
  ↔ ∃ j, i = (k + j)%nat ∧ first_unset accs j.
Proof.
  revert k. induction accs as [|acc accs IH]; intros k; cbn [range_check].
  - split; [done|]. intros (j & _ & Hj & _). by destruct j.
  - destruct acc as [meta|].
    + rewrite IH. split.
      * intros (j & -> & Hj & Hbefore). exists (S j). split; [lia|]. split; [done|].
        intros [|j'] Hlt; [by exists meta|]. apply Hbefore. lia.
      * intros (j & -> & Hj & Hbefore). destruct j as [|j].
        { by destruct (Hbefore 0%nat) as [? ?]; [|]. }
        exists j. split; [lia|]. split; [done|].
        intros j' Hlt. apply (Hbefore (S j')). lia.
    + split.
      * intros [= <-]. exists 0%nat. split; [lia|]. split; [done|]. lia.
      * intros (j & -> & Hj & Hbefore). destruct j as [|j].
        { by rewrite Nat.add_0_r. }
        destruct (Hbefore 0%nat) as [meta Hmeta]; [lia|]. done.
Qed.

Lemma range_check_all_set (accs : AccountMetaSlice) (k : nat) :
  range_check k accs = None ↔ ∀ j, (j < length accs)%nat → is_set accs j.
Proof.
  revert k. induction accs as [|acc accs IH]; intros k; cbn [range_check length].
  - split; [|done]. intros _ j Hj. lia.
  - destruct acc as [meta|].
    + rewrite IH. split.
      * intros Hall [|j] Hj; [by exists meta|]. apply Hall. lia.
      * intros Hall j Hj. apply (Hall (S j)). lia.
    + split; [done|]. intros Hall.
      destruct (Hall 0%nat) as [meta Hmeta]; [lia|]. done.
Qed.

Section builders.
Context `{Collaborators}.

Lemma Create_ValidateAndBuild_run s :
  Create.ValidateAndBuild s =
  match derive_if_unset s with
  | (Returns _, s') =>
      match range_check 0 s' with
      | Some err => (Returns (inr err), s')
      | None =>
          (Returns (inl (mkInstruction s' (TypeIDFromUint8 Instruction_Create))), s')
      end
  | (Panics p, s') => (Panics p, s')
  end.
Proof.
  unfold Create.ValidateAndBuild. rewrite method_bind_run, Create_Validate_run.
  destruct (derive_if_unset s) as [[[]|p] s'] eqn:Hs; [|done].
  destruct (range_check 0 s'); [done|].
  by rewrite method_bind_run, Create_Build_run, (derive_if_unset_again s s' Hs).
Qed.

Lemma CreateIdempotent_ValidateAndBuild_run s :
  CreateIdempotent.ValidateAndBuild s =
  match derive_if_unset s with
  | (Returns _, s') =>
      match range_check 0 s' with
      | Some err => (Returns (inr err), s')
      | None =>
          (Returns (inl (mkInstruction s'
                           (TypeIDFromUint8 Instruction_CreateIdempotent))), s')
      end
  | (Panics p, s') => (Panics p, s')
  end.
Proof.
  unfold CreateIdempotent.ValidateAndBuild.
  rewrite method_bind_run, CreateIdempotent_Validate_run.
  destruct (derive_if_unset s) as [[[]|p] s'] eqn:Hs; [|done].
  destruct (range_check 0 s'); [done|].
  by rewrite method_bind_run, CreateIdempotent_Build_run,
    (derive_if_unset_again s s' Hs).
Qed.

End builders.

(** ** C2: [Build] on a builder without a wallet *)

(** C2 (the code at the failing input).  On a builder fresh from its
    constructor, [Build] of either variant returns no instruction: slot 1 is
    unset, so the address is to be derived, and reading the key of the unset
    wallet slot dereferences nil.  [Validate] stops the same way, before its
    scan for unset slots. *)
Theorem Build_panics_on_fresh_builder `{Collaborators} :
  Create.Build Create.NewCreateInstructionBuilder
  = (Panics NilDereference, Create.NewCreateInstructionBuilder)
  ∧ CreateIdempotent.Build CreateIdempotent.NewCreateIdempotentInstructionBuilder
    = (Panics NilDereference, CreateIdempotent.NewCreateIdempotentInstructionBuilder)
  ∧ Create.Validate Create.NewCreateInstructionBuilder
    = (Panics NilDereference, Create.NewCreateInstructionBuilder)
  ∧ CreateIdempotent.Validate CreateIdempotent.NewCreateIdempotentInstructionBuilder
    = (Panics NilDereference, CreateIdempotent.NewCreateIdempotentInstructionBuilder).
Proof. repeat split. Qed.

(** ** C3: the address [Build] derives *)

(** C3.  On a builder whose wallet, mint and token-program slots hold the
    keys W, M and P and whose slot 1 is unset or holds the zero key, [Build]
    of either variant returns, and has written into slot 1 a writable,
    non-signer role for the address that the external derivation returns for
    the seeds (W, P, M) against the owning program id; the bump and the
    validity output of the derivation are not looked at. *)
Theorem Build_derives_slot_1 `{Collaborators}
    (s : AccountMetaSlice) (ata : option AccountMeta) (w m p : AccountMeta) :
  s !! 1%nat = Some ata → nil_or_zero ata = true →
  s !! 2%nat = Some (Some w) → s !! 3%nat = Some (Some m) →
  s !! 5%nat = Some (Some p) →
  let W := AccountMeta.PublicKey w in
  let M := AccountMeta.PublicKey m in
  let P := AccountMeta.PublicKey p in
  let address :=
    (FindProgramAddress [bytes_of W; bytes_of P; bytes_of M]
       SPLAssociatedTokenAccountProgramID).1.1 in
  let s' := <[1%nat := Some (AccountMeta.mk address true false)]> s in
  Create.Build s
  = (Returns (mkInstruction s' (TypeIDFromUint8 Instruction_Create)), s')
  ∧ CreateIdempotent.Build s
    = (Returns (mkInstruction s' (TypeIDFromUint8 Instruction_CreateIdempotent)), s')
  ∧ s' !! 1%nat = Some (Some (AccountMeta.mk address true false)).
Proof.
  intros H1 Hz H2 H3 H5 W M P address s'.
  pose proof (derive_if_unset_set s ata w m p H1 Hz H2 H3 H5) as Hstep.
  rewrite Create_Build_run, CreateIdempotent_Build_run, Hstep.
  repeat split. apply list_lookup_insert_eq. by apply lookup_lt_Some in H1.
Qed.

Lemma Build_derives_slot_1_witness :
  ∃ inst,
    Create.Build (H := sample_collaborators) sample_builder
    = (Returns inst, Impl inst)
    ∧ Impl inst !! 1%nat
      = Some (Some (AccountMeta.mk
                      (PublicKeyFromBytes
                         (replicate 8 Byte.x02 ++ replicate 8 Byte.x04
                          ++ replicate 8 Byte.x03))
                      true false)).
Proof.
  destruct (Build_derives_slot_1 (H := sample_collaborators) sample_builder None
              (Meta (sample_key Byte.x02)) (Meta (sample_key Byte.x03))
              (Meta (sample_key Byte.x04)))
    as (Hbuild & _ & Hslot); try reflexivity.
  eexists. split; [exact Hbuild|exact Hslot].
Defined.

(** ** C4: [Validate] reports the first unset slot *)

Lemma unset_has_first (s : AccountMetaSlice) :
  (∃ j, is_unset s j) → ∃ i, first_unset s i.
Proof.
  intros [j Hj]. destruct (range_check 0 s) as [[i]|] eqn:Hcheck.
  - apply range_check_first in Hcheck as (i' & _ & Hfirst). by exists i'.
  - exfalso. pose proof (proj1 (range_check_all_set s 0) Hcheck j) as Hall.
    destruct Hall as [meta Hmeta]; [by apply lookup_lt_Some in Hj|].
    unfold is_unset in Hj. congruence.
Qed.

Lemma first_unset_checked (s : AccountMetaSlice) (i : nat) :
  first_unset s i → range_check 0 s = Some (NotSet i).
Proof. intros Hfirst. apply range_check_first. by exists i. Qed.

(** C4.  Take a builder on which the derive-if-unset step completes, leaving
    the account list [s'].  If [s'] has an unset slot it has a first one, and
    for the first unset slot [i] (every slot below it is set) [Validate]
    returns the error naming [i] and nothing else, and [ValidateAndBuild]
    returns that error.  If every slot of [s'] is set, [Validate] returns no
    error and [ValidateAndBuild] returns what [Build] returns.  The same for
    both variants. *)
Theorem Validate_reports_first_unset `{Collaborators} (s s' : AccountMetaSlice) :
  derive_if_unset s = (Returns tt, s') →
  ((∃ j, is_unset s' j) → ∃ i, first_unset s' i)
  ∧ (∀ i, first_unset s' i →
       Create.Validate s = (Returns (Some (NotSet i)), s')
       ∧ Create.ValidateAndBuild s = (Returns (inr (NotSet i)), s')
       ∧ CreateIdempotent.Validate s = (Returns (Some (NotSet i)), s')
       ∧ CreateIdempotent.ValidateAndBuild s = (Returns (inr (NotSet i)), s'))
  ∧ ((∀ j, (j < length s')%nat → is_set s' j) →
       Create.Validate s = (Returns None, s')
       ∧ Create.ValidateAndBuild s = returned inl (Create.Build s)
       ∧ CreateIdempotent.Validate s = (Returns None, s')
       ∧ CreateIdempotent.ValidateAndBuild s
         = returned inl (CreateIdempotent.Build s)).
Proof.
  intros Hstep. split; [apply unset_has_first|]. split.
  - intros i Hfirst. apply first_unset_checked in Hfirst.
    rewrite Create_Validate_run, Create_ValidateAndBuild_run,
      CreateIdempotent_Validate_run, CreateIdempotent_ValidateAndBuild_run.
    by rewrite Hstep, Hfirst.
  - intros Hall. apply (range_check_all_set s' 0) in Hall.
    rewrite Create_Validate_run, Create_ValidateAndBuild_run,
      CreateIdempotent_Validate_run, CreateIdempotent_ValidateAndBuild_run,
      Create_Build_run, CreateIdempotent_Build_run.
    by rewrite Hstep, Hall.
Qed.

Lemma Validate_reports_first_unset_witness :
  (∃ s', Create.Validate (H := sample_collaborators) sample_no_payer
         = (Returns (Some (NotSet 0)), s'))
  ∧ Create.Validate (H := sample_collaborators) sample_no_token_program
    = (Returns (Some (NotSet 5)), sample_no_token_program).
Proof.
  split.
  - eexists.
    refine (proj1 (proj1 (proj2 (Validate_reports_first_unset
              (H := sample_collaborators) sample_no_payer _ eq_refl)) 0%nat _)).
    split; [reflexivity|]. intros j Hj. lia.
  - refine (proj1 (proj1 (proj2 (Validate_reports_first_unset
              (H := sample_collaborators) sample_no_token_program
              sample_no_token_program eq_refl)) 5%nat _)).
    split; [reflexivity|].
    intros j Hj. do 5 (destruct j as [|j]; [eexists; reflexivity|]). lia.
Defined.

(** ** C9: what [Build] and [Validate] change *)

Lemma derive_if_unset_frame `{Collaborators} (s : AccountMetaSlice) :
  length (derive_if_unset s).2 = length s
  ∧ ∀ i, i ≠ 1%nat → (derive_if_unset s).2 !! i = s !! i.
Proof.
  destruct (derive_if_unset_cases s)
    as [[p Hs]|[(ata & _ & _ & Hs)|(ata & w & m & p & _ & _ & _ & _ & _ & Hs)]];
    rewrite Hs; cbn [snd]; try done.
  split; [apply length_insert|]. intros i Hi. by apply list_lookup_insert_ne.
Qed.

(** C9.  [Build] and [Validate] of either variant leave the account list with
    its length and with every slot other than slot 1 as it was.  The write to
    slot 1 comes before the scan: when slot 1 was unset or held the zero key
    and [Validate] returns an error for an unset slot, the wallet, mint and
    token-program slots were set and slot 1 of the list left behind holds the
    derived address. *)
Theorem Build_and_Validate_change_slot_1_only `{Collaborators} (s : AccountMetaSlice) :
  (length (Create.Build s).2 = length s
   ∧ ∀ i, i ≠ 1%nat → (Create.Build s).2 !! i = s !! i)
  ∧ (length (Create.Validate s).2 = length s
     ∧ ∀ i, i ≠ 1%nat → (Create.Validate s).2 !! i = s !! i)
  ∧ (length (CreateIdempotent.Build s).2 = length s
     ∧ ∀ i, i ≠ 1%nat → (CreateIdempotent.Build s).2 !! i = s !! i)
  ∧ (length (CreateIdempotent.Validate s).2 = length s
     ∧ ∀ i, i ≠ 1%nat → (CreateIdempotent.Validate s).2 !! i = s !! i)
  ∧ (∀ ata err s',
       s !! 1%nat = Some ata → nil_or_zero ata = true →
       Create.Validate s = (Returns (Some err), s')
       ∨ CreateIdempotent.Validate s = (Returns (Some err), s') →
       ∃ w m p,
         s !! 2%nat = Some (Some w) ∧ s !! 3%nat = Some (Some m)
         ∧ s !! 5%nat = Some (Some p)
         ∧ s' !! 1%nat
           = Some (Some (WRITE (Meta (derived_address (AccountMeta.PublicKey w)
                                        (AccountMeta.PublicKey m)
                                        (AccountMeta.PublicKey p)))))).
Proof.
  pose proof (derive_if_unset_frame s) as Hframe.
  rewrite Create_Build_run, Create_Validate_run, CreateIdempotent_Build_run,
    CreateIdempotent_Validate_run.
  repeat split; try (destruct (derive_if_unset s) as [[[]|q] s1]; apply Hframe).
  intros ata err s' H1 Hz Hvalidate.
  destruct (derive_if_unset_cases s)
    as [[q Hs]|[(ata' & H1' & Hz' & Hs)|(ata' & w & m & p & H1' & _ & H2 & H3 & H5 & Hs)]];
    rewrite Hs in Hvalidate.
  - by destruct Hvalidate.
  - congruence.
  - exists w, m, p. repeat split; try done.
    assert (s' = <[1%nat := Some (WRITE (Meta (derived_address
              (AccountMeta.PublicKey w) (AccountMeta.PublicKey m)
              (AccountMeta.PublicKey p))))]> s) as ->
      by (destruct Hvalidate; congruence).
    apply list_lookup_insert_eq. by apply lookup_lt_Some in H1.
Qed.

Lemma Build_and_Validate_change_slot_1_only_witness :
  ∃ s', Create.Validate (H := sample_collaborators) sample_no_payer
        = (Returns (Some (NotSet 0)), s')
        ∧ s' !! 0%nat = Some None
        ∧ s' !! 1%nat
          = Some (Some (AccountMeta.mk
                          (PublicKeyFromBytes
                             (replicate 8 Byte.x02 ++ replicate 8 Byte.x04
                              ++ replicate 8 Byte.x03))
                          true false)).
Proof.
  eexists. split; [reflexivity|]. split; [reflexivity|].
  destruct (proj2 (proj2 (proj2 (proj2 (Build_and_Validate_change_slot_1_only
              (H := sample_collaborators) sample_no_payer))))
              None (NotSet 0) _ eq_refl eq_refl (or_introl eq_refl))
    as (w & m & p & H2 & H3 & H5 & Hslot).
  injection H2 as <-. injection H3 as <-. injection H5 as <-. exact Hslot.
Defined.

(** ** C10: the permission flags of each slot *)

(** When the step runs on a list whose slot 1 is unset or zero and returns,
    it has written a writable, non-signer role into slot 1 and nothing
    else. *)
Lemma derive_if_unset_written `{Collaborators} (s s' : AccountMetaSlice) ata :
  s !! 1%nat = Some ata → nil_or_zero ata = true →
  derive_if_unset s = (Returns tt, s') →
  ∃ key, s' = <[1%nat := Some (AccountMeta.mk key true false)]> s
         ∧ s' !! 1%nat = Some (Some (AccountMeta.mk key true false)).
Proof.
  intros H1 Hz Hstep.
  destruct (derive_if_unset_cases s)
    as [[p Hs]|[(ata' & H1' & Hz' & Hs)|(ata' & w & m & p & _ & _ & _ & _ & _ & Hs)]].
  - congruence.
  - congruence.
  - rewrite Hstep in Hs. injection Hs as ->. eexists. split; [reflexivity|].
    apply list_lookup_insert_eq. by apply lookup_lt_Some in H1.
Qed.

(** C10.  For both variants: the constructor makes a list of seven slots,
    slots 0 to 3 unset and slots 4, 5 and 6 holding the system-program id, the
    token-program id and the rent-sysvar id as read-only, non-signer roles;
    on such a list [SetPayer] puts a writable signer into slot 0,
    [SetAssociatedTokenAccount] a writable non-signer into slot 1, and
    [SetWallet], [SetMint] and [SetTokenProgramID] a read-only non-signer into
    slots 2, 3 and 5, each leaving the other slots alone; and whenever
    [Build] or [Validate] is called with slot 1 unset or holding the zero key
    and returns, its derive-if-unset step has put a writable non-signer into
    slot 1 and left the other slots alone. *)
Theorem slot_permissions `{Collaborators} :
  let constructed :=
    [None; None; None; None;
     Some (AccountMeta.mk SystemProgramID false false);
     Some (AccountMeta.mk TokenProgramID false false);
     Some (AccountMeta.mk SysVarRentPubkey false false)] in
  Create.NewCreateInstructionBuilder = constructed
  ∧ CreateIdempotent.NewCreateIdempotentInstructionBuilder = constructed
  ∧ (∀ (s : AccountMetaSlice) key, length s = 7%nat →
       Create.SetPayer key s
       = (Returns tt, <[0%nat := Some (AccountMeta.mk key true true)]> s)
       ∧ Create.SetAssociatedTokenAccount key s
         = (Returns tt, <[1%nat := Some (AccountMeta.mk key true false)]> s)
       ∧ Create.SetWallet key s
         = (Returns tt, <[2%nat := Some (AccountMeta.mk key false false)]> s)
       ∧ Create.SetMint key s
         = (Returns tt, <[3%nat := Some (AccountMeta.mk key false false)]> s)
       ∧ Create.SetTokenProgramID key s
         = (Returns tt, <[5%nat := Some (AccountMeta.mk key false false)]> s)
       ∧ CreateIdempotent.SetPayer key s
         = (Returns tt, <[0%nat := Some (AccountMeta.mk key true true)]> s)
       ∧ CreateIdempotent.SetAssociatedTokenAccount key s
         = (Returns tt, <[1%nat := Some (AccountMeta.mk key true false)]> s)
       ∧ CreateIdempotent.SetWallet key s
         = (Returns tt, <[2%nat := Some (AccountMeta.mk key false false)]> s)
       ∧ CreateIdempotent.SetMint key s
         = (Returns tt, <[3%nat := Some (AccountMeta.mk key false false)]> s)
       ∧ CreateIdempotent.SetTokenProgramID key s
         = (Returns tt, <[5%nat := Some (AccountMeta.mk key false false)]> s))
  ∧ (∀ (s s' : AccountMetaSlice) ata inst,
       s !! 1%nat = Some ata → nil_or_zero ata = true →
       Create.Build s = (Returns inst, s') →
       ∃ key, s' = <[1%nat := Some (AccountMeta.mk key true false)]> s
              ∧ s' !! 1%nat = Some (Some (AccountMeta.mk key true false)))
  ∧ (∀ (s s' : AccountMetaSlice) ata err,
       s !! 1%nat = Some ata → nil_or_zero ata = true →
       Create.Validate s = (Returns err, s') →
       ∃ key, s' = <[1%nat := Some (AccountMeta.mk key true false)]> s
              ∧ s' !! 1%nat = Some (Some (AccountMeta.mk key true false)))
  ∧ (∀ (s s' : AccountMetaSlice) ata inst,
       s !! 1%nat = Some ata → nil_or_zero ata = true →
       CreateIdempotent.Build s = (Returns inst, s') →
       ∃ key, s' = <[1%nat := Some (AccountMeta.mk key true false)]> s
              ∧ s' !! 1%nat = Some (Some (AccountMeta.mk key true false)))
  ∧ (∀ (s s' : AccountMetaSlice) ata err,
       s !! 1%nat = Some ata → nil_or_zero ata = true →
       CreateIdempotent.Validate s = (Returns err, s') →
       ∃ key, s' = <[1%nat := Some (AccountMeta.mk key true false)]> s
              ∧ s' !! 1%nat = Some (Some (AccountMeta.mk key true false))).
Proof.
  cbv zeta. split; [reflexivity|]. split; [reflexivity|]. split.
  - intros s key Hlen.
    unfold Create.SetPayer, Create.SetAssociatedTokenAccount, Create.SetWallet,
      Create.SetMint, Create.SetTokenProgramID, CreateIdempotent.SetPayer,
      CreateIdempotent.SetAssociatedTokenAccount, CreateIdempotent.SetWallet,
      CreateIdempotent.SetMint, CreateIdempotent.SetTokenProgramID.
    rewrite !assign_run by lia. done.
  - repeat split; intros s s' ata r H1 Hz Hcall;
      rewrite ?Create_Build_run, ?Create_Validate_run, ?CreateIdempotent_Build_run,
        ?CreateIdempotent_Validate_run in Hcall;
      destruct (derive_if_unset s) as [[[]|q] s1] eqn:Hstep; try discriminate;
      injection Hcall as _ <-;
      exact (derive_if_unset_written s s1 ata H1 Hz Hstep).
Qed.

Lemma slot_permissions_witness :
  Create.SetPayer (sample_key Byte.x01)
    (Create.NewCreateInstructionBuilder (H := sample_collaborators))
  = (Returns tt,
     <[0%nat := Some (AccountMeta.mk (sample_key Byte.x01) true true)]>
       (Create.NewCreateInstructionBuilder (H := sample_collaborators)))
  ∧ ∃ inst s',
      Create.Build (H := sample_collaborators) sample_builder = (Returns inst, s')
      ∧ ∃ key, s' !! 1%nat = Some (Some (AccountMeta.mk key true false)).
Proof.
  split.
  - refine (proj1 (proj1 (proj2 (proj2 (slot_permissions (H := sample_collaborators))))
                     (Create.NewCreateInstructionBuilder (H := sample_collaborators))
                     (sample_key Byte.x01) eq_refl)).
  - eexists _, _. split; [reflexivity|].
    destruct (proj1 (proj2 (proj2 (proj2 (slot_permissions (H := sample_collaborators)))))
                sample_builder _ None _ eq_refl eq_refl eq_refl)
      as (key & _ & Hslot).
    exists key. exact Hslot.
Defined.

(** ** C8: the two variants side by side *)

Lemma chain_same (cs : list setter) (s : AccountMetaSlice) :
  chain Create_call cs s = chain CreateIdempotent_call cs s.
Proof.
  revert s. induction cs as [|c cs IH]; intros s; [reflexivity|].
  cbn [chain]. rewrite !method_bind_run.
  replace (CreateIdempotent_call c s) with (Create_call c s)
    by (by destruct c).
  destruct (Create_call c s) as [[[]|p] s1]; [apply IH|reflexivity].
Qed.

(** C8.  The same chain of setter calls with the same keys, applied to a
    fresh [Create] builder and to a fresh [CreateIdempotent] builder and
    followed by [Build], leaves the same account list in both (the same
    addresses and the same writable and signer flags in every slot); the two
    instructions carry that list and differ in the discriminant, and in
    nothing else; both write the same, empty, parameter payload. *)
Theorem Create_and_CreateIdempotent_agree `{Collaborators} (cs : list setter) :
  let r1 := (chain Create_call cs;; Create.Build)
              Create.NewCreateInstructionBuilder in
  let r2 := (chain CreateIdempotent_call cs;; CreateIdempotent.Build)
              CreateIdempotent.NewCreateIdempotentInstructionBuilder in
  r1.2 = r2.2
  ∧ differ_in_discriminant_only r1.1 r2.1
  ∧ written Create.MarshalWithEncoder = Ok []
  ∧ written CreateIdempotent.MarshalWithEncoder = Ok [].
Proof.
  cbv zeta.
  rewrite (method_bind_run (chain Create_call cs)),
    (method_bind_run (chain CreateIdempotent_call cs)).
  change CreateIdempotent.NewCreateIdempotentInstructionBuilder
    with Create.NewCreateInstructionBuilder.
  pose proof (chain_same cs Create.NewCreateInstructionBuilder) as Hsame.
  destruct (chain CreateIdempotent_call cs Create.NewCreateInstructionBuilder)
    as [[[]|p] s]; rewrite Hsame; clear Hsame; [|done].
  rewrite Create_Build_run, CreateIdempotent_Build_run.
  destruct (derive_if_unset s) as [[[]|p] s']; [|done].
  cbn. repeat split. discriminate.
Qed.

(** X18.  [NewCreateInstruction] with four keys, then [ValidateAndBuild]:
    the setter chain fills slots 0, 2, 3 and 5, validation passes, and the
    instruction carries seven set roles, the [Create] discriminant, and in
    slot 1 the address derived from the wallet, the given token program and
    the mint. *)
Lemma NewCreateInstruction_ValidateAndBuild `{Collaborators}
    (payer wallet mint tokenProgram : PublicKey) :
  let set_by_caller :=
    [Some (AccountMeta.mk payer true true);
     None;
     Some (AccountMeta.mk wallet false false);
     Some (AccountMeta.mk mint false false);
     Some (AccountMeta.mk SystemProgramID false false);
     Some (AccountMeta.mk tokenProgram false false);
     Some (AccountMeta.mk SysVarRentPubkey false false)] in
  let address :=
    (FindProgramAddress [bytes_of wallet; bytes_of tokenProgram; bytes_of mint]
       SPLAssociatedTokenAccountProgramID).1.1 in
  let built := <[1%nat := Some (AccountMeta.mk address true false)]> set_by_caller in
  Create.NewCreateInstruction payer wallet mint tokenProgram
  = (Returns tt, set_by_caller)
  ∧ Create.ValidateAndBuild set_by_caller
    = (Returns (inl (mkInstruction built Instruction_Create)), built).
Proof.
  cbv zeta. split; [reflexivity|].
  rewrite Create_ValidateAndBuild_run.
  by erewrite (derive_if_unset_set _ None (Meta wallet) (Meta mint) (Meta tokenProgram)).
Qed.

(** * Further properties of the codecs *)

Lemma Z_of_byte_of_Z z : Z_of_byte (byte_of_Z z) = z mod 256.
Proof.
  unfold byte_of_Z, Z_of_byte.
  assert (0 ≤ z mod 256 < 256) as Hrange by (apply Z.mod_pos_bound; lia).
  destruct (Byte.of_N (Z.to_N (z mod 256))) as [b|] eqn:Hb.
  - apply Byte.to_of_N in Hb. rewrite Hb. lia.
  - apply Byte.of_N_None_iff in Hb. lia.
Qed.

Lemma le_to_Z_Z_to_le n v : le_to_Z (Z_to_le n v) = v mod 256 ^ Z.of_nat n.
Proof.
  revert v. induction n as [|n IH]; intros v.
  - cbn. by rewrite Z.mod_1_r.
  - cbn [Z_to_le le_to_Z]. rewrite Z_of_byte_of_Z, IH.
    rewrite Nat2Z.inj_succ, Z.pow_succ_r by lia.
    rewrite (Z.rem_mul_r v 256) by lia. reflexivity.
Qed.

Lemma le_to_Z_Z_to_le_uint (n : nat) (bits v : Z) :
  bits = 8 * Z.of_nat n → is_uint bits v → le_to_Z (Z_to_le n v) = v.
Proof.
  intros -> Hv. rewrite le_to_Z_Z_to_le. apply Z.mod_small.
  unfold is_uint in Hv. replace (256 ^ Z.of_nat n) with (2 ^ (8 * Z.of_nat n)); [done|].
  rewrite Z.pow_mul_r by lia. reflexivity.
Qed.

Lemma PublicKeyFromBytes_bytes_of key : PublicKeyFromBytes (bytes_of key) = key.
Proof. apply copy_into_vec_to_list. Qed.

Lemma Decode_keys_wire n (keys : vec PublicKey n) rest :
  Multisig.Decode_keys n (keys_wire keys ++ rest) = Ok (keys, rest).
Proof.
  induction keys as [|key n keys IH]; [reflexivity|].
  cbn [Multisig.Decode_keys keys_wire]. rewrite <- app_assoc.
  rewrite bind_run, ReadNBytes_app by apply length_bytes_of.
  by rewrite bind_run, IH, ret_run, PublicKeyFromBytes_bytes_of.
Qed.

Lemma Mint_encode_wire m out :
  Mint.MarshalWithEncoder m out = Ok (tt, out ++ Mint_wire m).
Proof. apply Mint_encode_run. Qed.

Lemma Account_encode_wire a out :
  Account.MarshalWithEncoder a out = Ok (tt, out ++ Account_wire a).
Proof. apply Account_encode_run. Qed.

Lemma Multisig_encode_wire n (obj : Multisig.Multisig n) out :
  Multisig.MarshalWithEncoder obj out = Ok (tt, out ++ Multisig_wire obj).
Proof. apply Multisig_encode_run. Qed.

Lemma bool_byte_back (b : bool) :
  negb (le_to_Z (Z_to_le 1 (if b then 1 else 0)) =? 0) = b.
Proof. by destruct b. Qed.

(** Decoding the wire form of a record into any receiver: an absent optional
    field leaves the receiver's field in place. *)
Lemma Mint_decode_wire m0 m rest :
  Mint_in_range m →
  Mint.UnmarshalWithDecoder m0 (Mint_wire m ++ rest) =
  Ok (Mint.mk
        (match Mint.MintAuthority m with
         | Some key => Some key
         | None => Mint.MintAuthority m0
         end)
        (Mint.Supply m) (Mint.Decimals m) (Mint.IsInitialized m)
        (match Mint.FreezeAuthority m with
         | Some key => Some key
         | None => Mint.FreezeAuthority m0
         end),
      rest).
Proof.
  intros [Hs Hd]. destruct m as [ma s d i fa]. unfold Mint_wire.
  cbn [Mint.MintAuthority Mint.Supply Mint.Decimals Mint.IsInitialized
       Mint.FreezeAuthority] in *.
  destruct ma as [ka|], fa as [kf|]; unfold encodeOptional_key;
    rewrite <- !app_assoc;
    rewrite Mint_decode_pieces by len;
    rewrite ?PublicKeyFromBytes_bytes_of, bool_byte_back,
      (le_to_Z_Z_to_le_uint 8 64 s), (le_to_Z_Z_to_le_uint 1 8 d) by done;
    reflexivity.
Qed.

Lemma Account_decode_wire a0 a rest :
  Account_in_range a →
  Account.UnmarshalWithDecoder a0 (Account_wire a ++ rest) =
  Ok (Account.mk (Account.Mint a) (Account.Owner a) (Account.Amount a)
        (match Account.Delegate a with
         | Some key => Some key
         | None => Account.Delegate a0
         end)
        (Account.State a)
        (match Account.IsNative a with
         | Some v => Some v
         | None => Account.IsNative a0
         end)
        (Account.DelegatedAmount a)
        (match Account.CloseAuthority a with
         | Some key => Some key
         | None => Account.CloseAuthority a0
         end),
      rest).
Proof.
  intros (Ha & Hs & Hn & Hda). destruct a as [m o a d s n da c]. unfold Account_wire.
  cbn [Account.Mint Account.Owner Account.Amount Account.Delegate Account.State
       Account.IsNative Account.DelegatedAmount Account.CloseAuthority] in *.
  destruct d as [kd|], n as [vn|], c as [kc|];
    unfold encodeOptional_key, encodeOptional_u64;
    rewrite <- !app_assoc;
    rewrite Account_decode_pieces by len;
    rewrite ?PublicKeyFromBytes_bytes_of,
      (le_to_Z_Z_to_le_uint 8 64 a), (le_to_Z_Z_to_le_uint 1 8 s),
      (le_to_Z_Z_to_le_uint 8 64 da), ?(le_to_Z_Z_to_le_uint 8 64 vn) by done;
    reflexivity.
Qed.

Lemma Multisig_decode_wire n (obj0 obj : Multisig.Multisig n) rest :
  Multisig_in_range obj →
  Multisig.UnmarshalWithDecoder obj0 (Multisig_wire obj ++ rest) = Ok (obj, rest).
Proof.
  intros [Hm Hn]. destruct obj as [m k i signers]. unfold Multisig_wire.
  cbn [Multisig.M Multisig.N Multisig.IsInitialized Multisig.Signers] in *.
  unfold Multisig.UnmarshalWithDecoder, Multisig.Decode_uint8, Multisig.Decode_bool.
  rewrite <- !app_assoc.
  rewrite bind_run, ReadUint8_app by len.
  rewrite bind_run, ReadUint8_app by len.
  rewrite bind_run, ReadBool_app by len.
  rewrite bind_run, Decode_keys_wire, ret_run.
  by rewrite bool_byte_back, (le_to_Z_Z_to_le_uint 1 8 m),
    (le_to_Z_Z_to_le_uint 1 8 k).
Qed.

Lemma length_field (off n : nat) (buf : list byte) :
  (off + n ≤ length buf)%nat → length (field off n buf) = n.
Proof. intros Hlen. unfold field. rewrite length_take, length_drop. lia. Qed.

Lemma le_to_Z_uint (n : nat) (bs : list byte) :
  length bs = n → is_uint (8 * Z.of_nat n) (le_to_Z bs).
Proof.
  intros <-. unfold is_uint. rewrite Z.pow_mul_r by lia.
  apply le_to_Z_range.
Qed.

Lemma Mint_decode_long m0 buf m rest :
  Mint.UnmarshalWithDecoder m0 buf = Ok (m, rest) → (82 ≤ length buf)%nat.
Proof.
  intros Hdec. destruct (decide (82 ≤ length buf)%nat) as [|Hshort]; [done|].
  rewrite Mint_short in Hdec by lia. discriminate.
Qed.

Lemma Account_decode_long a0 buf a rest :
  Account.UnmarshalWithDecoder a0 buf = Ok (a, rest) → (165 ≤ length buf)%nat.
Proof.
  intros Hdec. destruct (decide (165 ≤ length buf)%nat) as [|Hshort]; [done|].
  rewrite Account_short in Hdec by lia. discriminate.
Qed.

Lemma decode_Mint_in_range buf m rest :
  decode_Mint buf = Ok (m, rest) → Mint_in_range m.
Proof.
  intros Hdec. pose proof (Mint_decode_long _ _ _ _ Hdec) as Hlen.
  unfold decode_Mint in Hdec. rewrite Mint_decode_fields in Hdec by done.
  injection Hdec as <- _. split; cbn [Mint.Supply Mint.Decimals].
  - apply (le_to_Z_uint 8). apply length_field. lia.
  - apply (le_to_Z_uint 1). apply length_field. lia.
Qed.

Lemma decode_Account_in_range buf a rest :
  decode_Account buf = Ok (a, rest) → Account_in_range a.
Proof.
  intros Hdec. pose proof (Account_decode_long _ _ _ _ Hdec) as Hlen.
  unfold decode_Account in Hdec. rewrite Account_decode_fields in Hdec by done.
  injection Hdec as <- _.
  split; [|split; [|split]];
    cbn [Account.Amount Account.State Account.IsNative
         Account.DelegatedAmount Account.zero].
  - apply (le_to_Z_uint 8). apply length_field. lia.
  - apply (le_to_Z_uint 1). apply length_field. lia.
  - destruct (_ =? 1); [|done]. apply (le_to_Z_uint 8). apply length_field. lia.
  - apply (le_to_Z_uint 8). apply length_field. lia.
Qed.

Lemma length_Mint_wire m : length (Mint_wire m) = 82%nat.
Proof.
  unfold Mint_wire.
  by rewrite !length_app, !length_encodeOptional_key, !length_Z_to_le.
Qed.

Lemma length_Account_wire a : length (Account_wire a) = 165%nat.
Proof.
  unfold Account_wire.
  by rewrite !length_app, !length_encodeOptional_key, !length_encodeOptional_u64,
    !length_Z_to_le, !length_bytes_of.
Qed.

Lemma decode_Mint_wire m rest :
  Mint_in_range m → decode_Mint (Mint_wire m ++ rest) = Ok (m, rest).
Proof.
  intros Hm. unfold decode_Mint. rewrite Mint_decode_wire by done.
  by destruct m as [[?|] ? ? ? [?|]].
Qed.

Lemma decode_Account_wire a rest :
  Account_in_range a → decode_Account (Account_wire a ++ rest) = Ok (a, rest).
Proof.
  intros Ha. unfold decode_Account. rewrite Account_decode_wire by done.
  by destruct a as [? ? ? [?|] ? [?|] ? [?|]].
Qed.

(** X1.  A [Mint] whose integer fields are in range, encoded and then decoded
    into a fresh record, comes back unchanged, and the decoder stops right
    after the record: whatever follows the encoding is left unread. *)
Theorem Mint_decode_after_encode (m : Mint.Mint) (rest : list byte) :
  Mint_in_range m →
  ∃ bytes, written (Mint.MarshalWithEncoder m) = Ok bytes
           ∧ decode_Mint (bytes ++ rest) = Ok (m, rest).
Proof.
  intros Hm. exists (Mint_wire m). unfold written.
  rewrite Mint_encode_wire. split; [done|]. by apply decode_Mint_wire.
Qed.

Lemma Mint_decode_after_encode_witness :
  ∃ bytes, written (Mint.MarshalWithEncoder sample_mint_record) = Ok bytes
           ∧ decode_Mint (bytes ++ sample_flag2_mint)
             = Ok (sample_mint_record, sample_flag2_mint).
Proof.
  apply (Mint_decode_after_encode sample_mint_record sample_flag2_mint).
  unfold Mint_in_range, is_uint. cbn. lia.
Defined.

(** X2.  An [Account] whose integer fields are in range, encoded and then
    decoded into a fresh record, comes back unchanged, with the bytes after
    the encoding left unread. *)
Theorem Account_decode_after_encode (a : Account.Account) (rest : list byte) :
  Account_in_range a →
  ∃ bytes, written (Account.MarshalWithEncoder a) = Ok bytes
           ∧ decode_Account (bytes ++ rest) = Ok (a, rest).
Proof.
  intros Ha. exists (Account_wire a). unfold written.
  rewrite Account_encode_wire. split; [done|]. by apply decode_Account_wire.
Qed.

Lemma Account_decode_after_encode_witness :
  ∃ bytes, written (Account.MarshalWithEncoder sample_account_record) = Ok bytes
           ∧ decode_Account (bytes ++ []) = Ok (sample_account_record, []).
Proof.
  apply (Account_decode_after_encode sample_account_record []).
  unfold Account_in_range, is_uint. cbn. lia.
Defined.

(** X3.  A [Multisig] whose [M] and [N] are in range, marshalled and then
    unmarshalled into any receiver, comes back unchanged (every field of the
    receiver is overwritten), with the bytes after the encoding left
    unread. *)
Theorem Multisig_decode_after_encode (n : nat) (obj0 obj : Multisig.Multisig n)
    (rest : list byte) :
  Multisig_in_range obj →
  ∃ bytes, written (Multisig.MarshalWithEncoder obj) = Ok bytes
           ∧ length bytes = (3 + 32 * n)%nat
           ∧ Multisig.UnmarshalWithDecoder obj0 (bytes ++ rest) = Ok (obj, rest).
Proof.
  intros Hobj. exists (Multisig_wire obj). unfold written.
  rewrite Multisig_encode_wire. split; [done|]. split.
  - unfold Multisig_wire. rewrite !length_app, !length_Z_to_le, length_keys_wire. lia.
  - by apply Multisig_decode_wire.
Qed.

Lemma Multisig_decode_after_encode_witness :
  ∃ bytes, written (Multisig.MarshalWithEncoder sample_multisig_record) = Ok bytes
           ∧ length bytes = 67%nat
           ∧ Multisig.UnmarshalWithDecoder (Multisig.zero 2) (bytes ++ [])
             = Ok (sample_multisig_record, []).
Proof.
  apply (Multisig_decode_after_encode 2 (Multisig.zero 2) sample_multisig_record []).
  unfold Multisig_in_range, is_uint. cbn. lia.
Defined.

(** X4.  Re-encoding is a normalisation.  Any buffer that holds a [Mint] (82
    bytes or more) or an [Account] (165 or more) is decoded and encoded again
    into a canonical buffer of exactly the record's size, and that buffer is
    a fixed point: decoding and encoding it gives it back. *)
Theorem reencode_normalises :
  (∀ buf, (82 ≤ length buf)%nat →
     ∃ out, reencode decode_Mint Mint.MarshalWithEncoder buf = Ok out
            ∧ length out = 82%nat
            ∧ canonical_Mint out = true
            ∧ reencode decode_Mint Mint.MarshalWithEncoder out = Ok out)
  ∧ (∀ buf, (165 ≤ length buf)%nat →
     ∃ out, reencode decode_Account Account.MarshalWithEncoder buf = Ok out
            ∧ length out = 165%nat
            ∧ canonical_Account out = true
            ∧ reencode decode_Account Account.MarshalWithEncoder out = Ok out).
Proof.
  split; intros buf Hlen.
  - destruct (decode_Mint buf) as [[m rest]|e] eqn:Hdec.
    2: { unfold decode_Mint in Hdec. by rewrite Mint_decode_fields in Hdec. }
    pose proof (decode_Mint_in_range _ _ _ Hdec) as Hm.
    assert (Hfix : reencode decode_Mint Mint.MarshalWithEncoder (Mint_wire m)
                   = Ok (Mint_wire m)).
    { unfold reencode. rewrite <- (app_nil_r (Mint_wire m)) at 1.
      rewrite decode_Mint_wire by done. unfold written.
      by rewrite Mint_encode_wire. }
    exists (Mint_wire m). unfold reencode at 1. rewrite Hdec. unfold written.
    rewrite Mint_encode_wire. repeat split; [apply length_Mint_wire| |done].
    apply Mint_roundtrip; [apply length_Mint_wire|done].
  - destruct (decode_Account buf) as [[a rest]|e] eqn:Hdec.
    2: { unfold decode_Account in Hdec. by rewrite Account_decode_fields in Hdec. }
    pose proof (decode_Account_in_range _ _ _ Hdec) as Ha.
    assert (Hfix : reencode decode_Account Account.MarshalWithEncoder (Account_wire a)
                   = Ok (Account_wire a)).
    { unfold reencode. rewrite <- (app_nil_r (Account_wire a)) at 1.
      rewrite decode_Account_wire by done. unfold written.
      by rewrite Account_encode_wire. }
    exists (Account_wire a). unfold reencode at 1. rewrite Hdec. unfold written.
    rewrite Account_encode_wire. repeat split; [apply length_Account_wire| |done].
    apply Account_roundtrip; [apply length_Account_wire|done].
Qed.

Lemma reencode_normalises_witness :
  ∃ out, reencode decode_Mint Mint.MarshalWithEncoder
           (sample_flag2_mint ++ sample_mint) = Ok out
         ∧ length out = 82%nat
         ∧ canonical_Mint out = true
         ∧ reencode decode_Mint Mint.MarshalWithEncoder out = Ok out.
Proof.
  apply (proj1 reencode_normalises (sample_flag2_mint ++ sample_mint)).
  vm_compute. lia.
Defined.

(** X5.  The decoders only ever assign an optional field of the receiver when
    its flag is 1.  So decoding into a receiver that was used before gives
    the record a fresh decode gives, except that every optional field the
    buffer marks absent keeps what the receiver held. *)
Theorem decode_into_used_receiver :
  (∀ m0 buf, (82 ≤ length buf)%nat →
     ∃ m fresh,
       Mint.UnmarshalWithDecoder m0 buf = Ok (m, drop 82 buf)
       ∧ decode_Mint buf = Ok (fresh, drop 82 buf)
       ∧ m = Mint.mk
               (match Mint.MintAuthority fresh with
                | Some key => Some key
                | None => Mint.MintAuthority m0
                end)
               (Mint.Supply fresh) (Mint.Decimals fresh) (Mint.IsInitialized fresh)
               (match Mint.FreezeAuthority fresh with
                | Some key => Some key
                | None => Mint.FreezeAuthority m0
                end))
  ∧ (∀ a0 buf, (165 ≤ length buf)%nat →
     ∃ a fresh,
       Account.UnmarshalWithDecoder a0 buf = Ok (a, drop 165 buf)
       ∧ decode_Account buf = Ok (fresh, drop 165 buf)
       ∧ a = Account.mk (Account.Mint fresh) (Account.Owner fresh)
               (Account.Amount fresh)
               (match Account.Delegate fresh with
                | Some key => Some key
                | None => Account.Delegate a0
                end)
               (Account.State fresh)
               (match Account.IsNative fresh with
                | Some v => Some v
                | None => Account.IsNative a0
                end)
               (Account.DelegatedAmount fresh)
               (match Account.CloseAuthority fresh with
                | Some key => Some key
                | None => Account.CloseAuthority a0
                end)).
Proof.
  split.
  - intros m0 buf Hlen. eexists _, _. unfold decode_Mint.
    rewrite !Mint_decode_fields by done. split; [done|]. split; [done|].
    cbn [Mint.MintAuthority Mint.Supply Mint.Decimals Mint.IsInitialized
         Mint.FreezeAuthority Mint.zero].
    by destruct (_ =? 1), (_ =? 1).
  - intros a0 buf Hlen. eexists _, _. unfold decode_Account.
    rewrite !Account_decode_fields by done. split; [done|]. split; [done|].
    cbn [Account.Mint Account.Owner Account.Amount Account.Delegate Account.State
         Account.IsNative Account.DelegatedAmount Account.CloseAuthority
         Account.zero].
    by destruct (_ =? 1), (_ =? 1), (_ =? 1).
Qed.

Lemma decode_into_used_receiver_witness :
  ∃ m, Mint.UnmarshalWithDecoder sample_used_receiver sample_mint = Ok (m, [])
       ∧ Mint.MintAuthority m = Some (sample_key Byte.x2a)
       ∧ Mint.FreezeAuthority m = Some (sample_key Byte.x12).
Proof.
  destruct (proj1 decode_into_used_receiver sample_used_receiver sample_mint)
    as (m & fresh & Hm & Hfresh & ->).
  - vm_compute. lia.
  - injection Hfresh as <-. eexists. split; [exact Hm|]. split; reflexivity.
Defined.

(** X6.  Records written one after the other are read back one after the
    other: a [Mint] and an [Account] in range, encoded in sequence into one
    buffer of 247 bytes, are returned by a [Mint] decode followed by an
    [Account] decode on that buffer, and what follows them is left unread. *)
Theorem records_in_sequence (m : Mint.Mint) (a : Account.Account)
    (rest : list byte) :
  Mint_in_range m → Account_in_range a →
  ∃ bytes,
    written (Mint.MarshalWithEncoder m;; Account.MarshalWithEncoder a) = Ok bytes
    ∧ length bytes = 247%nat
    ∧ (m' ← decode_Mint; a' ← decode_Account; mret (m', a')) (bytes ++ rest)
      = Ok ((m, a), rest).
Proof.
  intros Hm Ha. exists (Mint_wire m ++ Account_wire a). unfold written.
  rewrite bind_run, Mint_encode_wire, Account_encode_wire. cbn [app].
  split; [done|]. split.
  - by rewrite length_app, length_Mint_wire, length_Account_wire.
  - rewrite <- app_assoc, bind_run, decode_Mint_wire by done.
    by rewrite bind_run, decode_Account_wire.
Qed.

Lemma records_in_sequence_witness :
  ∃ bytes,
    written (Mint.MarshalWithEncoder sample_mint_record;;
             Account.MarshalWithEncoder sample_account_record) = Ok bytes
    ∧ length bytes = 247%nat
    ∧ (m' ← decode_Mint; a' ← decode_Account; mret (m', a')) (bytes ++ [])
      = Ok ((sample_mint_record, sample_account_record), []).
Proof.
  apply (records_in_sequence sample_mint_record sample_account_record []).
  - unfold Mint_in_range, is_uint. cbn. lia.
  - unfold Account_in_range, is_uint. cbn. lia.
Defined.

(** X7.  A decode that succeeds tells the caller three things: the buffer
    held at least the record's fixed size, exactly that many bytes were
    consumed, and every integer field of the fresh record is a value of its
    Go type. *)
Theorem decode_success_inversion :
  (∀ buf m rest, decode_Mint buf = Ok (m, rest) →
     (82 ≤ length buf)%nat ∧ rest = drop 82 buf ∧ Mint_in_range m)
  ∧ (∀ buf a rest, decode_Account buf = Ok (a, rest) →
     (165 ≤ length buf)%nat ∧ rest = drop 165 buf ∧ Account_in_range a).
Proof.
  split.
  - intros buf m rest Hdec. pose proof (Mint_decode_long _ _ _ _ Hdec) as Hlen.
    split; [done|]. split; [|by eapply decode_Mint_in_range].
    unfold decode_Mint in Hdec. rewrite Mint_decode_fields in Hdec by done.
    by injection Hdec.
  - intros buf a rest Hdec. pose proof (Account_decode_long _ _ _ _ Hdec) as Hlen.
    split; [done|]. split; [|by eapply decode_Account_in_range].
    unfold decode_Account in Hdec. rewrite Account_decode_fields in Hdec by done.
    by injection Hdec.
Qed.

Lemma decode_success_inversion_witness :
  (82 ≤ length sample_mint)%nat ∧ [] = drop 82 sample_mint
  ∧ Mint_in_range sample_mint_record.
Proof.
  apply (proj1 decode_success_inversion sample_mint sample_mint_record []).
  reflexivity.
Defined.

(** * Further properties of the builders *)

Section builders.
Context `{Collaborators}.

Lemma derive_if_unset_returns_iff (s : AccountMetaSlice) :
  (∃ s', derive_if_unset s = (Returns tt, s')) ↔ can_derive s.
Proof.
  split.
  - intros [s' Hs'].
    destruct (derive_if_unset_cases s)
      as [[p Hs]|[(ata & H1 & Hz & Hs)|(ata & w & m & p & H1 & Hz & H2 & H3 & H5 & Hs)]].
    + congruence.
    + exists ata. auto.
    + exists ata. split; [done|]. right.
      split; [by exists w|]. split; [by exists m|by exists p].
  - intros (ata & H1 & [Hz|([w H2] & [m H3] & [p H5])]).
    + exists s. by apply (derive_if_unset_keep s ata).
    + destruct (nil_or_zero ata) eqn:Hz.
      * eexists. by apply (derive_if_unset_set s ata w m p).
      * exists s. by apply (derive_if_unset_keep s ata).
Qed.

Lemma derive_if_unset_panic_keeps (s s' : AccountMetaSlice) p :
  derive_if_unset s = (Panics p, s') → s' = s.
Proof.
  intros Hp.
  destruct (derive_if_unset_cases s)
    as [[q Hs]|[(ata & _ & _ & Hs)|(ata & w & m & q & _ & _ & _ & _ & _ & Hs)]];
    congruence.
Qed.

(** After the step, slot 1 is set. *)
Lemma derive_if_unset_sets_slot_1 (s s' : AccountMetaSlice) :
  derive_if_unset s = (Returns tt, s') → is_set s' 1.
Proof.
  intros Hstep.
  destruct (derive_if_unset_cases s)
    as [[p Hs]|[(ata & H1 & Hz & Hs)|(ata & w & m & p & H1 & Hz & H2 & H3 & H5 & Hs)]];
    rewrite Hstep in Hs; simplify_eq.
  - destruct ata as [meta|]; [by exists meta|done].
  - eexists. apply list_lookup_insert_eq. by apply lookup_lt_Some in H1.
Qed.

End builders.

Lemma setter_call_run (c : setter) (s : AccountMetaSlice) :
  (slot_of c < length s)%nat →
  Create_call c s = (Returns tt, <[slot_of c := Some (role_of c)]> s)
  ∧ CreateIdempotent_call c s = (Returns tt, <[slot_of c := Some (role_of c)]> s).
Proof. intros Hlen. destruct c; split; by apply assign_run. Qed.

Lemma slot_of_bound (c : setter) : (slot_of c < 6)%nat.
Proof. destruct c; cbn; lia. Qed.

Lemma chain_run (cs : list setter) (s : AccountMetaSlice) :
  (6 ≤ length s)%nat →
  ∃ s', chain Create_call cs s = (Returns tt, s')
        ∧ length s' = length s
        ∧ ∀ i, s' !! i = match last_write i cs with
                         | Some role => if decide (i < length s)%nat
                                        then Some (Some role) else None
                         | None => s !! i
                         end.
Proof.
  revert s. induction cs as [|c cs IH]; intros s Hlen.
  - exists s. by repeat split.
  - pose proof (slot_of_bound c) as Hc.
    destruct (setter_call_run c s) as [Hcall _]; [lia|].
    destruct (IH (<[slot_of c := Some (role_of c)]> s)) as (s' & Hs' & Hlen' & Hlook).
    { rewrite length_insert. lia. }
    exists s'. cbn [chain]. rewrite method_bind_run, Hcall, Hs'.
    rewrite length_insert in Hlen'. split; [done|]. split; [done|].
    intros i. rewrite Hlook. cbn [last_write]. rewrite length_insert.
    destruct (last_write i cs) as [role|]; [done|].
    destruct (decide (slot_of c = i)) as [<-|Hne].
    + rewrite decide_True by lia. apply list_lookup_insert_eq. lia.
    + by apply list_lookup_insert_ne.
Qed.

(** X8.  [Build], [Validate] and [ValidateAndBuild] of either variant return
    exactly when slot 1 exists and either holds a non-zero key or the wallet,
    mint and token-program slots are all set.  In every other state each of
    them panics, with the account list left as it was. *)
Theorem builder_returns_iff `{Collaborators} (s : AccountMetaSlice) :
  ((∃ inst s', Create.Build s = (Returns inst, s')) ↔ can_derive s)
  ∧ ((∃ err s', Create.Validate s = (Returns err, s')) ↔ can_derive s)
  ∧ ((∃ r s', Create.ValidateAndBuild s = (Returns r, s')) ↔ can_derive s)
  ∧ ((∃ inst s', CreateIdempotent.Build s = (Returns inst, s')) ↔ can_derive s)
  ∧ ((∃ err s', CreateIdempotent.Validate s = (Returns err, s')) ↔ can_derive s)
  ∧ ((∃ r s', CreateIdempotent.ValidateAndBuild s = (Returns r, s')) ↔ can_derive s)
  ∧ (¬ can_derive s →
     ∃ p, Create.Build s = (Panics p, s)
          ∧ Create.Validate s = (Panics p, s)
          ∧ Create.ValidateAndBuild s = (Panics p, s)
          ∧ CreateIdempotent.Build s = (Panics p, s)
          ∧ CreateIdempotent.Validate s = (Panics p, s)
          ∧ CreateIdempotent.ValidateAndBuild s = (Panics p, s)).
Proof.
  rewrite Create_Build_run, Create_Validate_run, Create_ValidateAndBuild_run,
    CreateIdempotent_Build_run, CreateIdempotent_Validate_run,
    CreateIdempotent_ValidateAndBuild_run.
  rewrite <- derive_if_unset_returns_iff.
  destruct (derive_if_unset s) as [[[]|p] s1] eqn:Hstep.
  - assert (Hyes : ∃ s', (Returns (), s1) = (Returns (), s')) by eauto.
    destruct (range_check 0 s1);
      (do 6 (split; [split; intros _; eauto|]));
      intros Hno; by destruct Hno.
  - apply derive_if_unset_panic_keeps in Hstep as Hs1. subst s1.
    assert (Hno : ¬ ∃ s', (Panics p, s) = (Returns (), s')) by (by intros [? ?]).
    do 6 (split; [split; [by intros (? & ? & ?)|by intros ?]|]).
    intros _. exists p. by repeat split.
Qed.

(** X9.  An associated address given by the caller is final.  When slot 1
    holds a non-zero key, [Build] of either variant returns an instruction
    over the account list exactly as it is, without deriving anything, also
    when the wallet, mint or payer slot was never set; [Validate] goes
    straight to its scan. *)
Theorem explicit_address_is_kept `{Collaborators}
    (s : AccountMetaSlice) (meta : AccountMeta) :
  s !! 1%nat = Some (Some meta) → IsZero (AccountMeta.PublicKey meta) = false →
  Create.Build s
  = (Returns (mkInstruction s (TypeIDFromUint8 Instruction_Create)), s)
  ∧ CreateIdempotent.Build s
    = (Returns (mkInstruction s (TypeIDFromUint8 Instruction_CreateIdempotent)), s)
  ∧ Create.Validate s = (Returns (range_check 0 s), s)
  ∧ CreateIdempotent.Validate s = (Returns (range_check 0 s), s).
Proof.
  intros H1 Hz.
  rewrite Create_Build_run, CreateIdempotent_Build_run, Create_Validate_run,
    CreateIdempotent_Validate_run.
  by rewrite (derive_if_unset_keep s (Some meta)).
Qed.

Lemma explicit_address_is_kept_witness :
  Create.Build (H := sample_collaborators) sample_explicit_ata
  = (Returns (mkInstruction sample_explicit_ata 0), sample_explicit_ata)
  ∧ Create.Validate (H := sample_collaborators) sample_explicit_ata
    = (Returns (Some (NotSet 0)), sample_explicit_ata).
Proof.
  destruct (explicit_address_is_kept (H := sample_collaborators) sample_explicit_ata
              (WRITE (Meta (sample_key Byte.x09))) eq_refl eq_refl)
    as (Hbuild & _ & Hvalidate & _).
  split; [exact Hbuild|exact Hvalidate].
Defined.

(** X10.  Building twice is building once: when [Build] (or [Validate])
    returns, a second call on the account list it left behind returns the
    same result and changes nothing more. *)
Theorem Build_twice `{Collaborators} (s s' : AccountMetaSlice) :
  (∀ inst, Create.Build s = (Returns inst, s') →
           Create.Build s' = (Returns inst, s'))
  ∧ (∀ inst, CreateIdempotent.Build s = (Returns inst, s') →
             CreateIdempotent.Build s' = (Returns inst, s'))
  ∧ (∀ err, Create.Validate s = (Returns err, s') →
            Create.Validate s' = (Returns err, s'))
  ∧ (∀ err, CreateIdempotent.Validate s = (Returns err, s') →
            CreateIdempotent.Validate s' = (Returns err, s')).
Proof.
  rewrite ?Create_Build_run, ?CreateIdempotent_Build_run, ?Create_Validate_run,
    ?CreateIdempotent_Validate_run.
  destruct (derive_if_unset s) as [[[]|p] s1] eqn:Hstep.
  2: by repeat split.
  repeat split; intros ? [= <- <-];
    by rewrite (derive_if_unset_again s s1 Hstep).
Qed.

Lemma Build_twice_witness :
  ∃ inst s',
    Create.Build (H := sample_collaborators) sample_builder = (Returns inst, s')
    ∧ Create.Build (H := sample_collaborators) s' = (Returns inst, s').
Proof.
  eexists _, _. split; [reflexivity|].
  apply (proj1 (Build_twice (H := sample_collaborators) sample_builder _)).
  reflexivity.
Defined.

(** X11.  [Build] derives the address once.  After a [Build] that derived a
    non-zero address, a setter call for another slot (a new wallet, mint,
    token program or payer) followed by a second [Build] keeps the address
    derived from the old keys in slot 1: the second [Build] finds slot 1 set
    and derives nothing. *)
Theorem Build_does_not_rederive `{Collaborators}
    (s : AccountMetaSlice) (ata : option AccountMeta) (w m p : AccountMeta)
    (c : setter) :
  s !! 1%nat = Some ata → nil_or_zero ata = true →
  s !! 2%nat = Some (Some w) → s !! 3%nat = Some (Some m) →
  s !! 5%nat = Some (Some p) →
  slot_of c ≠ 1%nat →
  let address := derived_address (AccountMeta.PublicKey w)
                   (AccountMeta.PublicKey m) (AccountMeta.PublicKey p) in
  IsZero address = false →
  let s2 := <[slot_of c := Some (role_of c)]>
              (<[1%nat := Some (AccountMeta.mk address true false)]> s) in
  (Create.Build;; Create_call c;; Create.Build) s
  = (Returns (mkInstruction s2 (TypeIDFromUint8 Instruction_Create)), s2)
  ∧ (CreateIdempotent.Build;; CreateIdempotent_call c;; CreateIdempotent.Build) s
    = (Returns (mkInstruction s2 (TypeIDFromUint8 Instruction_CreateIdempotent)), s2)
  ∧ s2 !! 1%nat = Some (Some (AccountMeta.mk address true false)).
Proof.
  intros H1 Hz H2 H3 H5 Hc address Hnonzero s2.
  pose proof (derive_if_unset_set s ata w m p H1 Hz H2 H3 H5) as Hstep.
  fold address in Hstep.
  assert (Hlen : (6 ≤ length s)%nat) by (apply lookup_lt_Some in H5; lia).
  pose proof (slot_of_bound c) as Hbound.
  subst s2. change (AccountMeta.mk address true false) with (WRITE (Meta address)).
  set (s1 := <[1%nat := Some (WRITE (Meta address))]> s) in *.
  set (s2 := <[slot_of c := Some (role_of c)]> s1).
  destruct (setter_call_run c s1) as [Hcall1 Hcall2].
  { unfold s1. rewrite length_insert. lia. }
  assert (Hslot : s2 !! 1%nat = Some (Some (WRITE (Meta address)))).
  { unfold s2. rewrite list_lookup_insert_ne by done.
    apply list_lookup_insert_eq. lia. }
  pose proof (derive_if_unset_keep s2 _ Hslot Hnonzero) as Hkeep.
  rewrite !method_bind_run.
  rewrite Create_Build_run, CreateIdempotent_Build_run, Hstep.
  rewrite !method_bind_run, Hcall1, Hcall2. fold s2.
  rewrite Create_Build_run, CreateIdempotent_Build_run, Hkeep. done.
Qed.

Lemma Build_does_not_rederive_witness :
  ∃ inst s2,
    (Create.Build (H := sample_collaborators);;
     Create.SetWallet (sample_key Byte.xff);;
     Create.Build (H := sample_collaborators)) sample_builder
    = (Returns inst, s2)
    ∧ s2 !! 2%nat = Some (Some (Meta (sample_key Byte.xff)))
    ∧ s2 !! 1%nat
      = Some (Some (AccountMeta.mk
                      (PublicKeyFromBytes
                         (replicate 8 Byte.x02 ++ replicate 8 Byte.x04
                          ++ replicate 8 Byte.x03))
                      true false)).
Proof.
  destruct (Build_does_not_rederive (H := sample_collaborators) sample_builder None
              (Meta (sample_key Byte.x02)) (Meta (sample_key Byte.x03))
              (Meta (sample_key Byte.x04)) (CallSetWallet (sample_key Byte.xff)))
    as (Hbuild & _ & Hslot); try reflexivity.
  - discriminate.
  - eexists _, _. split; [exact Hbuild|]. split; [reflexivity|exact Hslot].
Defined.

Lemma last_write_no_setter (i : nat) (cs : list setter) :
  (∀ c, slot_of c ≠ i) → last_write i cs = None.
Proof.
  intros Hno. induction cs as [|c cs IH]; [done|].
  cbn [last_write]. rewrite IH. by rewrite decide_False.
Qed.

(** X12.  What [ValidateAndBuild] returns, read backwards.  An instruction
    it returns carries the account list left behind, has the variant's
    discriminant, and has no unset slot; an error it returns names a slot
    that is unset in the list left behind, with every slot below it set.  In
    both cases slot 1 of that list is set. *)
Theorem ValidateAndBuild_result `{Collaborators} (s s' : AccountMetaSlice) :
  (∀ r, Create.ValidateAndBuild s = (Returns r, s') →
     is_set s' 1
     ∧ match r with
       | inl inst =>
           Impl inst = s' ∧ TypeID inst = Instruction_Create
           ∧ ∀ j, (j < length s')%nat → is_set s' j
       | inr (NotSet i) => first_unset s' i
       end)
  ∧ (∀ r, CreateIdempotent.ValidateAndBuild s = (Returns r, s') →
     is_set s' 1
     ∧ match r with
       | inl inst =>
           Impl inst = s' ∧ TypeID inst = Instruction_CreateIdempotent
           ∧ ∀ j, (j < length s')%nat → is_set s' j
       | inr (NotSet i) => first_unset s' i
       end).
Proof.
  rewrite Create_ValidateAndBuild_run, CreateIdempotent_ValidateAndBuild_run.
  destruct (derive_if_unset s) as [[[]|p] s1] eqn:Hstep; [|by split].
  pose proof (derive_if_unset_sets_slot_1 s s1 Hstep) as Hslot.
  destruct (range_check 0 s1) as [[i]|] eqn:Hcheck.
  - apply range_check_first in Hcheck as (j & -> & Hfirst).
    split; intros r [= <- <-]; by split.
  - pose proof (proj1 (range_check_all_set s1 0) Hcheck) as Hall.
    split; intros r [= <- <-]; by repeat split.
Qed.

Lemma ValidateAndBuild_result_witness :
  first_unset sample_no_token_program 5.
Proof.
  apply (proj2 (proj1 (ValidateAndBuild_result (H := sample_collaborators)
           sample_no_token_program sample_no_token_program)
           (inr (NotSet 5)) eq_refl)).
Defined.

(** X13.  Builders made by a constructor and setter calls.  Any chain of
    setter calls on a fresh builder of either variant runs without a panic
    and leaves seven slots, with the system program in slot 4, the rent
    sysvar in slot 6 and some token program in slot 5.  On such a builder an
    error of [Validate] can only name slot 0, 2 or 3. *)
Theorem constructed_builder_invariant `{Collaborators} (cs : list setter) :
  ∃ s,
    chain Create_call cs Create.NewCreateInstructionBuilder = (Returns tt, s)
    ∧ chain CreateIdempotent_call cs
        CreateIdempotent.NewCreateIdempotentInstructionBuilder = (Returns tt, s)
    ∧ length s = 7%nat
    ∧ s !! 4%nat = Some (Some (Meta SystemProgramID))
    ∧ s !! 6%nat = Some (Some (Meta SysVarRentPubkey))
    ∧ is_set s 5
    ∧ (∀ err s', Create.Validate s = (Returns (Some err), s')
                 ∨ CreateIdempotent.Validate s = (Returns (Some err), s') →
         err = NotSet 0 ∨ err = NotSet 2 ∨ err = NotSet 3).
Proof.
  destruct (chain_run cs Create.NewCreateInstructionBuilder) as (s & Hs & Hlen & Hlook);
    [cbn; lia|].
  exists s. split; [done|]. split; [by rewrite <- chain_same|].
  assert (H4 : s !! 4%nat = Some (Some (Meta SystemProgramID))).
  { rewrite Hlook, last_write_no_setter by (by intros []). reflexivity. }
  assert (H6 : s !! 6%nat = Some (Some (Meta SysVarRentPubkey))).
  { rewrite Hlook, last_write_no_setter by (by intros []). reflexivity. }
  assert (H5 : is_set s 5).
  { unfold is_set. rewrite Hlook. destruct (last_write 5 cs); eauto. }
  assert (Hlen7 : length s = 7%nat) by (rewrite Hlen; reflexivity).
  split; [done|]. split; [done|]. split; [done|]. split; [done|].
  intros err s' Hvalidate.
  rewrite Create_Validate_run, CreateIdempotent_Validate_run in Hvalidate.
  destruct (derive_if_unset s) as [[[]|p] s1] eqn:Hstep; [|by destruct Hvalidate].
  assert (range_check 0 s1 = Some err ∧ s' = s1) as [Hcheck ->]
    by (destruct Hvalidate; by simplify_eq).
  destruct err as [i].
  apply range_check_first in Hcheck as (j & -> & Hunset & _). cbn [Nat.add].
  pose proof (derive_if_unset_sets_slot_1 s s1 Hstep) as [meta1 H1].
  pose proof (derive_if_unset_frame s) as [Hlen1 Hframe]. rewrite Hstep in Hlen1, Hframe.
  cbn [snd] in Hlen1, Hframe. unfold is_unset in Hunset.
  assert (j < 7)%nat as Hj by (apply lookup_lt_Some in Hunset; lia).
  destruct H5 as [meta5 H5].
  destruct j as [|[|[|[|[|[|[|j]]]]]]]; auto; try lia; try congruence.
  - rewrite Hframe in Hunset by done. congruence.
  - rewrite Hframe in Hunset by done. congruence.
  - rewrite Hframe in Hunset by done. congruence.
Qed.

(** X14.  In a chain of setter calls the last call for a slot wins.  On a
    list of seven slots a chain never panics, it is the same for both
    variants, and afterwards every slot holds the role written by the last
    call of the chain for that slot, or, when the chain has no call for it,
    what it held before; so calls for different slots commute and a repeated
    call overwrites. *)
Theorem chain_last_write_wins (cs : list setter) (s : AccountMetaSlice) :
  length s = 7%nat →
  ∃ s',
    chain Create_call cs s = (Returns tt, s')
    ∧ chain CreateIdempotent_call cs s = (Returns tt, s')
    ∧ length s' = 7%nat
    ∧ ∀ i, (i < 7)%nat →
        s' !! i = match last_write i cs with
                  | Some role => Some (Some role)
                  | None => s !! i
                  end.
Proof.
  intros Hlen. destruct (chain_run cs s) as (s' & Hs' & Hlen' & Hlook); [lia|].
  exists s'. split; [done|]. split; [by rewrite <- chain_same|].
  split; [lia|]. intros i Hi. rewrite Hlook.
  destruct (last_write i cs); [|done]. by rewrite decide_True by lia.
Qed.

Lemma chain_last_write_wins_witness :
  ∃ s',
    chain Create_call sample_chain
      (Create.NewCreateInstructionBuilder (H := sample_collaborators))
    = (Returns tt, s')
    ∧ s' !! 2%nat = Some (Some (Meta (sample_key Byte.x05)))
    ∧ s' !! 0%nat = Some (Some (AccountMeta.mk (sample_key Byte.x01) true true)).
Proof.
  destruct (chain_last_write_wins sample_chain
              (Create.NewCreateInstructionBuilder (H := sample_collaborators)) eq_refl)
    as (s' & Hs' & _ & _ & Hlook).
  exists s'. split; [exact Hs'|]. split.
  - rewrite (Hlook 2%nat) by lia. reflexivity.
  - rewrite (Hlook 0%nat) by lia. reflexivity.
Defined.

(** X15.  A getter returns what the setter for its slot wrote last.  On a
    list of seven slots, after any setter call each of the five getters
    returns the role just written if the call was for its slot, and
    otherwise what it returned before the call. *)
Theorem getter_after_setter (c : setter) (s : AccountMetaSlice) :
  length s = 7%nat →
  let s' := <[slot_of c := Some (role_of c)]> s in
  let now (i : nat) (before : outcome (option AccountMeta) * AccountMetaSlice) :=
    (if decide (slot_of c = i) then Returns (Some (role_of c)) else before.1, s') in
  (Create_call c;; Create.GetPayer) s = now 0%nat (Create.GetPayer s)
  ∧ (Create_call c;; Create.GetAssociatedTokenAccount) s
    = now 1%nat (Create.GetAssociatedTokenAccount s)
  ∧ (Create_call c;; Create.GetWallet) s = now 2%nat (Create.GetWallet s)
  ∧ (Create_call c;; Create.GetMint) s = now 3%nat (Create.GetMint s)
  ∧ (Create_call c;; Create.GetTokenProgramID) s
    = now 5%nat (Create.GetTokenProgramID s)
  ∧ (CreateIdempotent_call c;; CreateIdempotent.GetPayer) s
    = now 0%nat (CreateIdempotent.GetPayer s)
  ∧ (CreateIdempotent_call c;; CreateIdempotent.GetAssociatedTokenAccount) s
    = now 1%nat (CreateIdempotent.GetAssociatedTokenAccount s)
  ∧ (CreateIdempotent_call c;; CreateIdempotent.GetWallet) s
    = now 2%nat (CreateIdempotent.GetWallet s)
  ∧ (CreateIdempotent_call c;; CreateIdempotent.GetMint) s
    = now 3%nat (CreateIdempotent.GetMint s)
  ∧ (CreateIdempotent_call c;; CreateIdempotent.GetTokenProgramID) s
    = now 5%nat (CreateIdempotent.GetTokenProgramID s).
Proof.
  intros Hlen s' now.
  assert (Hget : ∀ i, (i < 7)%nat →
            (Create_call c;; index i) s = now i (index i s)
            ∧ (CreateIdempotent_call c;; index i) s = now i (index i s)).
  { intros i Hi. pose proof (slot_of_bound c) as Hc.
    destruct (setter_call_run c s) as [Hcall1 Hcall2]; [lia|].
    rewrite !method_bind_run, Hcall1, Hcall2. fold s'. unfold now, index.
    destruct (decide (slot_of c = i)) as [<-|Hne].
    - unfold s'. by rewrite list_lookup_insert_eq by lia.
    - unfold s'. rewrite list_lookup_insert_ne by done.
      destruct (lookup_lt_is_Some_2 s i) as [acc Hacc]; [lia|]. by rewrite Hacc. }
  unfold Create.GetPayer, Create.GetAssociatedTokenAccount, Create.GetWallet,
    Create.GetMint, Create.GetTokenProgramID, CreateIdempotent.GetPayer,
    CreateIdempotent.GetAssociatedTokenAccount, CreateIdempotent.GetWallet,
    CreateIdempotent.GetMint, CreateIdempotent.GetTokenProgramID.
  repeat split; apply Hget; lia.
Qed.

Lemma getter_after_setter_witness :
  (Create.SetWallet (sample_key Byte.x05);; Create.GetWallet) sample_builder
  = (Returns (Some (Meta (sample_key Byte.x05))),
     <[2%nat := Some (Meta (sample_key Byte.x05))]> sample_builder).
Proof.
  exact (proj1 (proj2 (proj2 (getter_after_setter
           (CallSetWallet (sample_key Byte.x05)) sample_builder eq_refl)))).
Defined.

(** X16.  The token program defaults to the well-known one.  A builder on
    which only the payer, the wallet and the mint were set validates and
    builds: slot 5 holds the well-known token-program id put there by the
    constructor, and that id is the middle seed of the derived address. *)
Theorem default_token_program `{Collaborators} (payer wallet mint : PublicKey) :
  let set_by_caller :=
    [Some (AccountMeta.mk payer true true);
     None;
     Some (AccountMeta.mk wallet false false);
     Some (AccountMeta.mk mint false false);
     Some (AccountMeta.mk SystemProgramID false false);
     Some (AccountMeta.mk TokenProgramID false false);
     Some (AccountMeta.mk SysVarRentPubkey false false)] in
  let address :=
    (FindProgramAddress [bytes_of wallet; bytes_of TokenProgramID; bytes_of mint]
       SPLAssociatedTokenAccountProgramID).1.1 in
  let built := <[1%nat := Some (AccountMeta.mk address true false)]> set_by_caller in
  (Create.SetPayer payer;; Create.SetWallet wallet;; Create.SetMint mint;;
   Create.ValidateAndBuild) Create.NewCreateInstructionBuilder
  = (Returns (inl (mkInstruction built Instruction_Create)), built)
  ∧ (CreateIdempotent.SetPayer payer;; CreateIdempotent.SetWallet wallet;;
     CreateIdempotent.SetMint mint;; CreateIdempotent.ValidateAndBuild)
      CreateIdempotent.NewCreateIdempotentInstructionBuilder
    = (Returns (inl (mkInstruction built Instruction_CreateIdempotent)), built).
Proof.
  cbv zeta.
  assert (Hstep : derive_if_unset
            [Some (AccountMeta.mk payer true true); None;
             Some (AccountMeta.mk wallet false false);
             Some (AccountMeta.mk mint false false);
             Some (AccountMeta.mk SystemProgramID false false);
             Some (AccountMeta.mk TokenProgramID false false);
             Some (AccountMeta.mk SysVarRentPubkey false false)] = _)
    by (by apply (derive_if_unset_set _ None (Meta wallet) (Meta mint)
                    (Meta TokenProgramID))).
  split.
  - change ((Create.SetPayer payer;; Create.SetWallet wallet;; Create.SetMint mint;;
             Create.ValidateAndBuild) Create.NewCreateInstructionBuilder)
      with (Create.ValidateAndBuild
              [Some (AccountMeta.mk payer true true); None;
               Some (AccountMeta.mk wallet false false);
               Some (AccountMeta.mk mint false false);
               Some (AccountMeta.mk SystemProgramID false false);
               Some (AccountMeta.mk TokenProgramID false false);
               Some (AccountMeta.mk SysVarRentPubkey false false)]).
    by rewrite Create_ValidateAndBuild_run, Hstep.
  - change ((CreateIdempotent.SetPayer payer;; CreateIdempotent.SetWallet wallet;;
             CreateIdempotent.SetMint mint;; CreateIdempotent.ValidateAndBuild)
              CreateIdempotent.NewCreateIdempotentInstructionBuilder)
      with (CreateIdempotent.ValidateAndBuild
              [Some (AccountMeta.mk payer true true); None;
               Some (AccountMeta.mk wallet false false);
               Some (AccountMeta.mk mint false false);
               Some (AccountMeta.mk SystemProgramID false false);
               Some (AccountMeta.mk TokenProgramID false false);
               Some (AccountMeta.mk SysVarRentPubkey false false)]).
    by rewrite CreateIdempotent_ValidateAndBuild_run, Hstep.
Qed.

(** X17.  [NewCreateIdempotentInstruction] with four keys, then
    [ValidateAndBuild]: the setter chain fills slots 0, 2, 3 and 5, validation
    passes, and the instruction carries seven set roles, the
    [CreateIdempotent] discriminant, and in slot 1 the address derived from
    the wallet, the given token program and the mint. *)
Theorem NewCreateIdempotentInstruction_ValidateAndBuild `{Collaborators}
    (payer wallet mint tokenProgram : PublicKey) :
  let set_by_caller :=
    [Some (AccountMeta.mk payer true true);
     None;
     Some (AccountMeta.mk wallet false false);
     Some (AccountMeta.mk mint false false);
     Some (AccountMeta.mk SystemProgramID false false);
     Some (AccountMeta.mk tokenProgram false false);
     Some (AccountMeta.mk SysVarRentPubkey false false)] in
  let address :=
    (FindProgramAddress [bytes_of wallet; bytes_of tokenProgram; bytes_of mint]
       SPLAssociatedTokenAccountProgramID).1.1 in
  let built := <[1%nat := Some (AccountMeta.mk address true false)]> set_by_caller in
  CreateIdempotent.NewCreateIdempotentInstruction payer wallet mint tokenProgram
  = (Returns tt, set_by_caller)
  ∧ CreateIdempotent.ValidateAndBuild set_by_caller
    = (Returns (inl (mkInstruction built Instruction_CreateIdempotent)), built).
Proof.
  cbv zeta. split; [reflexivity|].
  rewrite CreateIdempotent_ValidateAndBuild_run.
  by erewrite (derive_if_unset_set _ None (Meta wallet) (Meta mint) (Meta tokenProgram)).
Qed.
